(** * Shallow embedding of the EscroAgent escrow contracts and settlement agent

    On-chain part: [Escrow] (contracts/contracts/Escrow.sol) and the factory
    [EscrowFactory] (contracts/contracts/EscrowFactory.sol), plus the
    creation-fee variant of the factory whose source text sits after the
    deploy script in contracts/scripts/deploy.js.
    Off-chain part: [ConditionService.checkCondition]
    (agent/services/conditionService.js), [ValidationService] and
    [BlockchainService.getEscrowDetails], and the monitoring loop of
    [AgentService].

    uint256 values and addresses are modelled as [Z]; a reverted transaction
    is [Revert msg] and discards every effect of the call. *)

From Stdlib Require Import ZArith List String Ascii Bool Lia.
Import ListNotations.
Open Scope string_scope.
Open Scope Z_scope.

Definition address := Z.
Definition address0 : address := 0.

(** ** Transaction results *)

(** A call either returns a value together with the value transfers it made
    (in order: recipient, amount), or reverts with a reason. *)
Inductive Result (A : Type) : Type :=
| Ok (a : A) (transfers : list (address * Z))
| Revert (reason : string).
Arguments Ok {A} a transfers.
Arguments Revert {A} reason.

Definition require {A} (c : bool) (reason : string) (k : Result A) : Result A :=
  if c then k else Revert reason.

(** ** Escrow.sol *)

Inductive Status := Pending | Escrowed | Settled | Disputed.

Definition Status_eqb (a b : Status) : bool :=
  match a, b with
  | Pending, Pending | Escrowed, Escrowed
  | Settled, Settled | Disputed, Disputed => true
  | _, _ => false
  end.

Record Agreement := mkAgreement {
  payer : address;
  payee : address;
  amount : Z;
  conditionType : Z;
  conditionDetailsHash : Z;
  status : Status;
  createdAt : Z;
  settledAt : Z
}.

(** Storage of one deployed [Escrow]; [balance] is [address(this).balance]. *)
Record Escrow := mkEscrow {
  agreement : Agreement;
  authorizedAgent : address;
  x402payFeeAddress : address;
  x402payFeeAmount : Z;
  balance : Z
}.

Definition set_status (a : Agreement) (s : Status) : Agreement :=
  mkAgreement a.(payer) a.(payee) a.(amount) a.(conditionType)
    a.(conditionDetailsHash) s a.(createdAt) a.(settledAt).

Definition set_settled (a : Agreement) (now : Z) : Agreement :=
  mkAgreement a.(payer) a.(payee) a.(amount) a.(conditionType)
    a.(conditionDetailsHash) Settled a.(createdAt) now.

Definition with_agreement (e : Escrow) (a : Agreement) (bal : Z) : Escrow :=
  mkEscrow a e.(authorizedAgent) e.(x402payFeeAddress) e.(x402payFeeAmount) bal.

(** [constructor(...) Ownable(_payer)]; [now] is [block.timestamp]. The
    account starts with [bal0] wei: ether may already sit at the address a
    contract is created at. The base constructor [Ownable(_payer)] runs
    before the body and reverts with the custom error [OwnableInvalidOwner]
    for a zero owner, so the body's own payer check is never the one that
    fails. *)
Definition Escrow_constructor (_payer _payee : address) (_amount _conditionType _conditionDetailsHash : Z)
    (_authorizedAgent _x402payFeeAddress : address) (_x402payFeeAmount : Z)
    (now bal0 : Z) : Result Escrow :=
  require (negb (_payer =? address0)) "OwnableInvalidOwner" (
  require (negb (_payer =? address0)) "Invalid payer address" (
  require (negb (_payee =? address0)) "Invalid payee address" (
  require (_amount >? 0) "Amount must be greater than 0" (
  require (negb (_authorizedAgent =? address0)) "Invalid agent address" (
  require (negb (_x402payFeeAddress =? address0)) "Invalid fee address" (
  require (_x402payFeeAmount <? _amount) "Fee amount must be less than total amount" (
  Ok (mkEscrow
        (mkAgreement _payer _payee _amount _conditionType _conditionDetailsHash
           Pending now 0)
        _authorizedAgent _x402payFeeAddress _x402payFeeAmount bal0) []))))))).

Section EscrowCalls.

(** Whether an external account accepts a plain ether transfer
    ([addr.call{value: v}("")] returns [true]). A recipient's code is
    reduced to this outcome: calls it makes back into the escrow while the
    transfer runs (into [receive], which has no reentrancy guard, when the
    recipient is the payer) are not represented, so after a successful
    [settle] the storage is the one [settle] itself writes. *)
Variable accepts : address -> Z -> bool.

(** A low-level [call{value: v}] from the contract: it fails when the
    contract's balance is short or the recipient rejects it. *)
Definition send_value (bal : Z) (to : address) (v : Z) : bool :=
  (v <=? bal) && accepts to v.

(** [settle() external onlyAgent notSettled notDisputed nonReentrant] *)
Definition settle (e : Escrow) (msg_sender : address) (now : Z) : Result Escrow :=
  let a := e.(agreement) in
  require (msg_sender =? e.(authorizedAgent)) "Only authorized agent can call this function" (
  require (negb (Status_eqb a.(status) Settled)) "Agreement already settled" (
  require (negb (Status_eqb a.(status) Disputed)) "Agreement is disputed" (
  let a' := set_settled a now in
  (* checked subtraction of Solidity 0.8 *)
  require (e.(x402payFeeAmount) <=? a.(amount)) "Panic: arithmetic underflow" (
  let payeeAmount := a.(amount) - e.(x402payFeeAmount) in
  let bal1 := e.(balance) in
  require (send_value bal1 a.(payee) payeeAmount) "Transfer to payee failed" (
  let bal2 := bal1 - payeeAmount in
  require (send_value bal2 e.(x402payFeeAddress) e.(x402payFeeAmount)) "Transfer of fee failed" (
  let bal3 := bal2 - e.(x402payFeeAmount) in
  Ok (with_agreement e a' bal3)
     [(a.(payee), payeeAmount); (e.(x402payFeeAddress), e.(x402payFeeAmount))])))))).

(** [initiateDispute(string reason) external onlyParticipant notSettled] *)
Definition initiateDispute (e : Escrow) (msg_sender : address) (reason : string) : Result Escrow :=
  let a := e.(agreement) in
  require ((msg_sender =? a.(payer)) || (msg_sender =? a.(payee)))
    "Only payer or payee can call this function" (
  require (negb (Status_eqb a.(status) Settled)) "Agreement already settled" (
  Ok (with_agreement e (set_status a Disputed) e.(balance)) [])).

End EscrowCalls.

(** [receive() external payable] *)
Definition receive (e : Escrow) (msg_sender : address) (msg_value : Z) : Result Escrow :=
  let a := e.(agreement) in
  require (msg_sender =? a.(payer)) "Only payer can send funds" (
  require (msg_value =? a.(amount)) "Incorrect amount sent" (
  Ok (with_agreement e (set_status a Escrowed) (e.(balance) + msg_value)) [])).

(** Ether that reaches the account without running its code (a
    [selfdestruct] beneficiary, a block reward). *)
Definition forced_deposit (e : Escrow) (v : Z) : Escrow :=
  with_agreement e e.(agreement) (e.(balance) + v).

(** The state-changing entry points of one [Escrow]. *)
Inductive Call :=
| CallReceive (msg_sender : address) (msg_value : Z)
| CallSettle (msg_sender : address) (now : Z)
| CallInitiateDispute (msg_sender : address) (reason : string).

Definition step (accepts : address -> Z -> bool) (e : Escrow) (c : Call) : Result Escrow :=
  match c with
  | CallReceive s v => receive e s v
  | CallSettle s now => settle accepts e s now
  | CallInitiateDispute s r => initiateDispute e s r
  end.

(** A sequence of transactions: a reverted one leaves the storage as it was. *)
Fixpoint run (accepts : address -> Z -> bool) (e : Escrow) (cs : list Call) : Escrow :=
  match cs with
  | [] => e
  | c :: cs' =>
      match step accepts e c with
      | Ok e' _ => run accepts e' cs'
      | Revert _ => run accepts e cs'
      end
  end.

(** ** EscrowFactory.sol *)

Module EscrowFactory.

Record Factory := mkFactory {
  self : address;                       (* address(this) *)
  x402payFeeAddress : address;
  x402payFeeAmount : Z;
  authorizedAgent : address;
  isEscrowContract : address -> bool;
  deployedEscrows : list address;
  totalAgreements : Z;
  totalVolume : Z
}.

Definition register (f : Factory) (escrowAddress : address) (_amount : Z) : Factory :=
  mkFactory f.(self) f.(x402payFeeAddress) f.(x402payFeeAmount) f.(authorizedAgent)
    (fun a => if a =? escrowAddress then true else f.(isEscrowContract) a)
    (f.(deployedEscrows) ++ [escrowAddress])
    (f.(totalAgreements) + 1) (f.(totalVolume) + _amount).

(** [createEscrow(_payee, _amount, _conditionType, _conditionHash) payable].
    [newAddr] is the address [new Escrow(...)] deploys to and [newBal] the
    ether already held there; the result is the new factory storage, the
    returned [escrowAddress] and the storage of the new escrow. *)
Definition createEscrow (f : Factory) (newAddr : address) (newBal : Z)
    (msg_sender : address) (msg_value now : Z)
    (_payee : address) (_amount _conditionType _conditionHash : Z)
    : Result (Factory * (address * Escrow)) :=
  require (negb (_payee =? address0)) "Invalid payee address" (
  require (_amount >? 0) "Amount must be greater than 0" (
  require (msg_value =? _amount) "Incorrect amount sent" (
  require (_conditionType <=? 2) "Invalid condition type" (
  match Escrow_constructor msg_sender _payee _amount _conditionType _conditionHash
          f.(authorizedAgent) f.(x402payFeeAddress) f.(x402payFeeAmount) now newBal with
  | Revert r => Revert r
  | Ok escrow _ =>
      let escrowAddress := newAddr in
      let f' := register f escrowAddress _amount in
      (* (bool success, ) = escrowAddress.call{value: _amount}("") *)
      match receive escrow f.(self) _amount with
      | Revert _ => Revert "Transfer to escrow failed"
      | Ok escrow' _ => Ok (f', (escrowAddress, escrow')) [(escrowAddress, _amount)]
      end
  end)))).

(** [constructor(_x402payFeeAddress, _x402payFeeAmount, _authorizedAgent)];
    [this] is the address the factory is deployed at. *)
Definition constructor (this : address) (_x402payFeeAddress : address) (_x402payFeeAmount : Z)
    (_authorizedAgent : address) : Result Factory :=
  require (negb (_x402payFeeAddress =? address0)) "Invalid fee address" (
  require (negb (_authorizedAgent =? address0)) "Invalid agent address" (
  require (_x402payFeeAmount >? 0) "Fee amount must be greater than 0" (
  Ok (mkFactory this _x402payFeeAddress _x402payFeeAmount _authorizedAgent
        (fun _ => false) [] 0 0) []))).

Definition getAgreementCount (f : Factory) : Z := f.(totalAgreements).
Definition getTotalVolume (f : Factory) : Z := f.(totalVolume).
Definition getDeployedEscrows (f : Factory) : list address := f.(deployedEscrows).
Definition getDeployedEscrowsCount (f : Factory) : Z := Z.of_nat (List.length f.(deployedEscrows)).

(** One [createEscrow] transaction: the address [new Escrow] deploys to,
    the ether already there, [msg.sender], [msg.value], [block.timestamp]
    and the four arguments. *)
Record CreateCall := mkCreateCall {
  cNewAddr : address;
  cNewBal : Z;
  cSender : address;
  cValue : Z;
  cNow : Z;
  cPayee : address;
  cAmount : Z;
  cConditionType : Z;
  cConditionHash : Z
}.

(** A sequence of [createEscrow] transactions, the only state-changing
    entry point: a reverted one leaves the storage as it was. *)
Fixpoint run (f : Factory) (cs : list CreateCall) : Factory :=
  match cs with
  | [] => f
  | c :: cs' =>
      match createEscrow f c.(cNewAddr) c.(cNewBal) c.(cSender) c.(cValue) c.(cNow)
              c.(cPayee) c.(cAmount) c.(cConditionType) c.(cConditionHash) with
      | Ok (f', _) _ => run f' cs'
      | Revert _ => run f cs'
      end
  end.

End EscrowFactory.

(** ** The creation-fee factory (contract text following the deploy script in
    contracts/scripts/deploy.js, deployed there with a fourth constructor
    argument [x402payCreationFee]) *)

Module EscrowFactoryFee.

Record Factory := mkFactory {
  self : address;
  owner : address;
  x402payFeeAddress : address;
  x402payFeeAmount : Z;
  authorizedAgent : address;
  x402payCreationFee : Z;
  isEscrowContract : address -> bool;
  deployedEscrows : list address;
  totalAgreements : Z;
  totalVolume : Z
}.

Definition register (f : Factory) (escrowAddress : address) (_amount : Z) : Factory :=
  mkFactory f.(self) f.(owner) f.(x402payFeeAddress) f.(x402payFeeAmount)
    f.(authorizedAgent) f.(x402payCreationFee)
    (fun a => if a =? escrowAddress then true else f.(isEscrowContract) a)
    (f.(deployedEscrows) ++ [escrowAddress])
    (f.(totalAgreements) + 1) (f.(totalVolume) + _amount).

(** [accepts] says whether the fee address accepts a plain transfer. *)
Definition createEscrow (accepts : address -> Z -> bool) (f : Factory)
    (newAddr : address) (newBal : Z) (msg_sender : address) (msg_value now : Z)
    (_payee : address) (_amount _conditionType _conditionHash : Z)
    : Result (Factory * (address * Escrow)) :=
  require (negb (_payee =? address0)) "Invalid payee address" (
  require (_amount >? 0) "Amount must be greater than 0" (
  require (msg_value >=? f.(x402payCreationFee)) "Insufficient ETH for creation fee" (
  require (_conditionType <=? 2) "Invalid condition type" (
  let amountToEscrow := msg_value - f.(x402payCreationFee) in
  require (amountToEscrow =? _amount) "Incorrect escrow amount after fee deduction" (
  let feeTransfers :=
    if f.(x402payCreationFee) >? 0 then [(f.(x402payFeeAddress), f.(x402payCreationFee))] else [] in
  require (if f.(x402payCreationFee) >? 0
           then accepts f.(x402payFeeAddress) f.(x402payCreationFee) else true)
    "Creation fee transfer failed" (
  match Escrow_constructor msg_sender _payee _amount _conditionType _conditionHash
          f.(authorizedAgent) f.(x402payFeeAddress) f.(x402payFeeAmount) now newBal with
  | Revert r => Revert r
  | Ok escrow _ =>
      let escrowAddress := newAddr in
      let f' := register f escrowAddress _amount in
      match receive escrow f.(self) amountToEscrow with
      | Revert _ => Revert "Transfer to escrow failed"
      | Ok escrow' _ =>
          Ok (f', (escrowAddress, escrow')) (feeTransfers ++ [(escrowAddress, amountToEscrow)])
      end
  end)))))).

(** [updateX402payCreationFee(_newCreationFee) external onlyOwner] *)
Definition updateX402payCreationFee (f : Factory) (msg_sender : address) (_newCreationFee : Z)
    : Result Factory :=
  require (msg_sender =? f.(owner)) "OwnableUnauthorizedAccount" (
  require (_newCreationFee >=? 0) "Creation fee cannot be negative" (
  Ok (mkFactory f.(self) f.(owner) f.(x402payFeeAddress) f.(x402payFeeAmount)
        f.(authorizedAgent) _newCreationFee f.(isEscrowContract) f.(deployedEscrows)
        f.(totalAgreements) f.(totalVolume)) [])).

(** [constructor(...) Ownable(msg.sender)]: OpenZeppelin's [Ownable]
    constructor rejects the zero owner first. *)
Definition constructor (this msg_sender : address) (_x402payFeeAddress : address)
    (_x402payFeeAmount : Z) (_authorizedAgent : address) (_x402payCreationFee : Z)
    : Result Factory :=
  require (negb (msg_sender =? address0)) "OwnableInvalidOwner" (
  require (negb (_x402payFeeAddress =? address0)) "Invalid fee address" (
  require (negb (_authorizedAgent =? address0)) "Invalid agent address" (
  require (_x402payFeeAmount >? 0) "Fee amount must be greater than 0" (
  require (_x402payCreationFee >=? 0) "Creation fee cannot be negative" (
  Ok (mkFactory this msg_sender _x402payFeeAddress _x402payFeeAmount _authorizedAgent
        _x402payCreationFee (fun _ => false) [] 0 0) []))))).

(** [Ownable.transferOwnership(newOwner) onlyOwner] *)
Definition transferOwnership (f : Factory) (msg_sender newOwner : address) : Result Factory :=
  require (msg_sender =? f.(owner)) "OwnableUnauthorizedAccount" (
  require (negb (newOwner =? address0)) "OwnableInvalidOwner" (
  Ok (mkFactory f.(self) newOwner f.(x402payFeeAddress) f.(x402payFeeAmount)
        f.(authorizedAgent) f.(x402payCreationFee) f.(isEscrowContract) f.(deployedEscrows)
        f.(totalAgreements) f.(totalVolume)) [])).

(** [Ownable.renounceOwnership() onlyOwner] *)
Definition renounceOwnership (f : Factory) (msg_sender : address) : Result Factory :=
  require (msg_sender =? f.(owner)) "OwnableUnauthorizedAccount" (
  Ok (mkFactory f.(self) address0 f.(x402payFeeAddress) f.(x402payFeeAmount)
        f.(authorizedAgent) f.(x402payCreationFee) f.(isEscrowContract) f.(deployedEscrows)
        f.(totalAgreements) f.(totalVolume)) []).

Definition getX402payCreationFee (f : Factory) : Z := f.(x402payCreationFee).
Definition getAgreementCount (f : Factory) : Z := f.(totalAgreements).
Definition getDeployedEscrows (f : Factory) : list address := f.(deployedEscrows).
Definition getDeployedEscrowsCount (f : Factory) : Z := Z.of_nat (List.length f.(deployedEscrows)).

(** The state-changing entry points of the creation-fee factory. *)
Inductive FactoryCall :=
| CallCreateEscrow (c : EscrowFactory.CreateCall)
| CallUpdateX402payCreationFee (msg_sender : address) (_newCreationFee : Z)
| CallTransferOwnership (msg_sender newOwner : address)
| CallRenounceOwnership (msg_sender : address).

Definition step (accepts : address -> Z -> bool) (f : Factory) (c : FactoryCall) : Result Factory :=
  match c with
  | CallCreateEscrow c =>
      match createEscrow accepts f c.(EscrowFactory.cNewAddr) c.(EscrowFactory.cNewBal)
              c.(EscrowFactory.cSender) c.(EscrowFactory.cValue) c.(EscrowFactory.cNow)
              c.(EscrowFactory.cPayee) c.(EscrowFactory.cAmount)
              c.(EscrowFactory.cConditionType) c.(EscrowFactory.cConditionHash) with
      | Ok (f', _) tr => Ok f' tr
      | Revert r => Revert r
      end
  | CallUpdateX402payCreationFee s fee => updateX402payCreationFee f s fee
  | CallTransferOwnership s o => transferOwnership f s o
  | CallRenounceOwnership s => renounceOwnership f s
  end.

Fixpoint run (accepts : address -> Z -> bool) (f : Factory) (cs : list FactoryCall) : Factory :=
  match cs with
  | [] => f
  | c :: cs' =>
      match step accepts f c with
      | Ok f' _ => run accepts f' cs'
      | Revert _ => run accepts f cs'
      end
  end.

Definition call_sender (c : FactoryCall) : address :=
  match c with
  | CallCreateEscrow c => c.(EscrowFactory.cSender)
  | CallUpdateX402payCreationFee s _ => s
  | CallTransferOwnership s _ => s
  | CallRenounceOwnership s => s
  end.

End EscrowFactoryFee.

(** ** Off-chain agent: JavaScript exceptions *)

(** A JavaScript computation returns a value or throws an [Error] with a
    message. *)
Inductive Exc (A : Type) : Type :=
| Done (a : A)
| Throw (message : string).
Arguments Done {A} a.
Arguments Throw {A} message.

(** ** ConditionService.checkCondition (agent/services/conditionService.js) *)

Module ConditionService.

(** The [agreementData] object: [createdAt] is in milliseconds, [None] for
    [undefined]; the string fields are [None] for [undefined]. The boolean
    flags are [false] when absent. *)
Record AgreementData := mkAgreementData {
  createdAt : option Z;
  conditionMet : bool;
  taskCompleted : bool;
  prMerged : bool;
  apiConditionMet : bool;
  customEventTriggered : bool;
  githubPrUrl : option string;
  apiEndpoint : option string;
  customEventName : option string
}.

(** JavaScript truthiness of a number and of a string field. *)
Definition truthyZ (o : option Z) : bool :=
  match o with Some n => negb (n =? 0) | None => false end.
Definition truthyS (o : option string) : bool :=
  match o with Some s => negb (String.eqb s "") | None => false end.

(** [agreementData?.createdAt || now] *)
Definition createdAt_or_now (agreementData : option AgreementData) (now : Z) : Z :=
  match agreementData with
  | Some d => match d.(createdAt) with
              | Some n => if n =? 0 then now else n
              | None => now
              end
  | None => now
  end.

(** [now] is [Date.now()] in milliseconds. *)
Definition checkDateCondition (conditionHash : Z) (agreementData : option AgreementData) (now : Z) : bool :=
  match agreementData with
  | Some d => if d.(conditionMet) then true
              else now >? createdAt_or_now agreementData now + 2 * 60 * 1000
  | None => now >? createdAt_or_now agreementData now + 2 * 60 * 1000
  end.

Definition checkTaskCondition (conditionHash : Z) (agreementData : option AgreementData) (now : Z) : bool :=
  match agreementData with
  | Some d =>
      if d.(taskCompleted) then true
      else if truthyZ d.(createdAt) then
        match d.(createdAt) with
        | Some c => now >? c + 3 * 60 * 1000
        | None => false
        end
      else false
  | None => false
  end.

Definition checkGithubPRCondition (conditionHash : Z) (agreementData : option AgreementData) (now : Z) : bool :=
  match agreementData with
  | Some d =>
      if d.(prMerged) then true
      else if truthyS d.(githubPrUrl) then now >? createdAt_or_now agreementData now + 4 * 60 * 1000
      else false
  | None => false
  end.

Definition checkApiCondition (conditionHash : Z) (agreementData : option AgreementData) (now : Z) : bool :=
  match agreementData with
  | Some d =>
      if d.(apiConditionMet) then true
      else if truthyS d.(apiEndpoint) then now >? createdAt_or_now agreementData now + 5 * 60 * 1000
      else false
  | None => false
  end.

Definition checkCustomEventCondition (conditionHash : Z) (agreementData : option AgreementData) (now : Z) : bool :=
  match agreementData with
  | Some d =>
      if d.(customEventTriggered) then true
      else if truthyS d.(customEventName) then now >? createdAt_or_now agreementData now + 6 * 60 * 1000
      else false
  | None => false
  end.

(** [checkCondition(escrowDetails, agreementData)]: the [switch] on the
    numeric [conditionType]; an unknown type logs a warning and gives
    [false]. No branch performs I/O. *)
Definition checkCondition (conditionType conditionHash : Z) (agreementData : option AgreementData) (now : Z) : bool :=
  if conditionType =? 0 then checkDateCondition conditionHash agreementData now
  else if conditionType =? 1 then checkTaskCondition conditionHash agreementData now
  else if conditionType =? 2 then checkGithubPRCondition conditionHash agreementData now
  else if conditionType =? 3 then checkApiCondition conditionHash agreementData now
  else if conditionType =? 4 then checkCustomEventCondition conditionHash agreementData now
  else false.

(** The flag each condition type reads first, and the field the demo
    timer of that type needs besides [createdAt]. *)
Definition recorded_flag (conditionType : Z) (d : AgreementData) : bool :=
  if conditionType =? 0 then d.(conditionMet)
  else if conditionType =? 1 then d.(taskCompleted)
  else if conditionType =? 2 then d.(prMerged)
  else if conditionType =? 3 then d.(apiConditionMet)
  else d.(customEventTriggered).

Definition timer_payload (conditionType : Z) (d : AgreementData) : bool :=
  if conditionType =? 2 then truthyS d.(githubPrUrl)
  else if conditionType =? 3 then truthyS d.(apiEndpoint)
  else if conditionType =? 4 then truthyS d.(customEventName)
  else true.

End ConditionService.

(** ** ValidationService and BlockchainService.getEscrowDetails *)

Module ValidationService.

Definition maxAmount : Z := 1000 * 10 ^ 18.   (* ethers.parseEther('1000') *)
Definition minAmount : Z := 10 ^ 15.          (* ethers.parseEther('0.001') *)

(** [validateAmount] on a bigint read from the chain; [!amount] holds
    exactly for [0n]. *)
Definition validateAmount (amount : Z) (fieldName : string) : Exc Z :=
  if amount =? 0 then Throw (fieldName ++ " is required")
  else if amount <=? 0 then Throw (fieldName ++ " must be greater than 0")
  else if amount <? minAmount then Throw (fieldName ++ " must be at least 0.001 ETH")
  else if amount >? maxAmount then Throw (fieldName ++ " cannot exceed 1000 ETH for security")
  else Done amount.

(** [validateConditionType] on [Number(details[3])], an integer. *)
Definition validateConditionType (conditionType : Z) (fieldName : string) : Exc Z :=
  if (conditionType <? 0) || (conditionType >? 4) then Throw (fieldName ++ " must be between 0 and 4")
  else Done conditionType.

(** [validateStatus] on [Number(status)], an integer. *)
Definition validateStatus (st : Z) (fieldName : string) : Exc Z :=
  if (st <? 0) || (st >? 3) then Throw (fieldName ++ " must be between 0 and 3 (Pending, Escrowed, Settled, Disputed)")
  else Done st.

(** [validateTimestamp]; [nowSec] is [Math.floor(Date.now() / 1000)]. *)
Definition validateTimestamp (timestamp nowSec : Z) (fieldName : string) : Exc Z :=
  if timestamp =? 0 then Throw (fieldName ++ " is required")
  else if timestamp <? nowSec - 365 * 24 * 60 * 60 then Throw (fieldName ++ " is too far in the past")
  else if timestamp >? nowSec + 365 * 24 * 60 * 60 then Throw (fieldName ++ " is too far in the future")
  else Done timestamp.

(** [validateAddress] and [validateConditionHash] on values returned by the
    contract: ethers hands back a well-formed address string and a
    0x-prefixed 32-byte hex string, so both checks pass. [validateAddress]
    returns [address.toLowerCase()], the same account as its argument: here
    an account is its number, so the result is the argument. The text and
    its case matter where the agent uses the address as a [Map] key, which
    [AgentCache] models with text keys. *)
Definition validateAddress (a : address) (fieldName : string) : Exc address := Done a.
Definition validateConditionHash (h : Z) (fieldName : string) : Exc Z := Done h.

Record Details := mkDetails {
  escrowAddress : address;
  payer : address;
  payee : address;
  amount : Z;
  conditionType : Z;
  conditionHash : Z;
  status : Z;
  createdAt : Z;
  settledAt : Z;
  balance : Z
}.

Definition bindE {A B} (m : Exc A) (k : A -> Exc B) : Exc B :=
  match m with Done a => k a | Throw e => Throw e end.
Notation "x <-! m ;; k" := (bindE m (fun x => k)) (at level 61, m at next level, right associativity).

(** [validateEscrowDetails(details)]: fields checked in object-literal order,
    then the two business rules; the [catch] logs and rethrows. *)
Definition validateEscrowDetails (d : Details) (nowSec : Z) : Exc Details :=
  ea <-! validateAddress d.(escrowAddress) "escrowAddress" ;;
  pr <-! validateAddress d.(payer) "payer" ;;
  pe <-! validateAddress d.(payee) "payee" ;;
  am <-! validateAmount d.(amount) "amount" ;;
  ct <-! validateConditionType d.(conditionType) "conditionType" ;;
  ch <-! validateConditionHash d.(conditionHash) "conditionHash" ;;
  st <-! validateStatus d.(status) "status" ;;
  ca <-! validateTimestamp d.(createdAt) nowSec "createdAt" ;;
  sa <-! (if d.(settledAt) =? 0 then Done 0 else validateTimestamp d.(settledAt) nowSec "settledAt") ;;
  bl <-! validateAmount d.(balance) "balance" ;;
  if pr =? pe then Throw "Payer and payee cannot be the same address"
  else if (st =? 2) && (sa =? 0) then Throw "Settled escrow must have a settlement timestamp"
  else Done (mkDetails ea pr pe am ct ch st ca sa bl).

Definition Status_to_Z (s : Status) : Z :=
  match s with Pending => 0 | Escrowed => 1 | Settled => 2 | Disputed => 3 end.

(** [BlockchainService.getEscrowDetails(escrowAddress)]: [chain] gives the
    storage of the [Escrow] at an address ([None]: no escrow there, the
    view calls fail). *)
Definition getEscrowDetails (chain : address -> option Escrow) (nowSec : Z) (escrowAddr : address)
    : Exc Details :=
  _ <-! validateAddress escrowAddr "escrowAddress" ;;
  match chain escrowAddr with
  | None => Throw "could not decode result data"
  | Some (mkEscrow (mkAgreement pr pe am ct h st ca sa) _ _ _ bal) =>
      validateEscrowDetails
        (mkDetails escrowAddr pr pe am ct h (Status_to_Z st) ca sa bal)
        nowSec
  end.

End ValidationService.

(** ** AgentService monitoring cycle *)

Module AgentService.

Import ValidationService.

(** What a cycle does that can be observed: an agreement's condition is
    evaluated, [blockchainService.settleEscrow] is invoked for it, and it
    reports success. *)
Inductive Event :=
| Evaluated (escrowAddress : address)
| SettleAttempted (escrowAddress : address)
| SettleSucceeded (escrowAddress : address).

(** An async method: it appends events to the log and returns or throws;
    events emitted before a throw stay in the log. *)
Definition M (A : Type) := list Event -> Exc A * list Event.

Definition ret {A} (a : A) : M A := fun l => (Done a, l).
Definition bind {A B} (m : M A) (k : A -> M B) : M B :=
  fun l => match m l with
           | (Done a, l') => k a l'
           | (Throw e, l') => (Throw e, l')
           end.
Definition emit (ev : Event) : M unit := fun l => (Done tt, (l ++ [ev])%list).
(** [await] of a call that returns or throws without logging events. *)
Definition lift {A} (x : Exc A) : M A := fun l => (x, l).
(** [try { m } catch (error) { h(error.message) }] *)
Definition try_catch {A} (m : M A) (h : string -> M A) : M A :=
  fun l => match m l with
           | (Throw e, l') => h e l'
           | r => r
           end.

Notation "x <- m ;; k" := (bind m (fun x => k)) (at level 61, m at next level, right associativity).

Fixpoint for_each (f : address -> M unit) (xs : list address) : M unit :=
  match xs with
  | [] => ret tt
  | x :: xs' => _ <- f x ;; for_each f xs'
  end.

Section Monitoring.

(** [blockchainService.getDeployedEscrows()] *)
Variable getDeployedEscrows : Exc (list address).
(** [blockchainService.getEscrowDetails(escrowAddress)]: the chain read and
    its validation. *)
Variable getEscrowDetails : address -> Exc Details.
(** [conditionService.checkCondition(escrowDetails,
    this.getSimulatedAgreementData(escrowDetails))]; the cache behind
    [getSimulatedAgreementData] is keyed by the escrow's own address. *)
Variable checkCondition : Details -> Exc bool.
(** [blockchainService.settleEscrow(escrowAddress)], giving [result.success]. *)
Variable blockchainSettleEscrow : address -> Exc bool.

Definition settleEscrow (escrowAddress : address) (escrowDetails : Details) : M unit :=
  try_catch
    (_ <- emit (SettleAttempted escrowAddress) ;;
     success <- lift (blockchainSettleEscrow escrowAddress) ;;
     if success then emit (SettleSucceeded escrowAddress) else ret tt)
    (fun _ => ret tt).

Definition processEscrowContract (escrowAddress : address) : M unit :=
  try_catch
    (escrowDetails <- lift (getEscrowDetails escrowAddress) ;;
     if (escrowDetails.(status) =? 2) || (escrowDetails.(status) =? 3) then ret tt
     else if negb (escrowDetails.(status) =? 1) then ret tt
     else
       _ <- emit (Evaluated escrowAddress) ;;
       isConditionMet <- lift (checkCondition escrowDetails) ;;
       if isConditionMet then settleEscrow escrowAddress escrowDetails else ret tt)
    (fun _ => ret tt).

Definition monitorAgreements : M unit :=
  try_catch
    (escrowAddresses <- lift getDeployedEscrows ;;
     match escrowAddresses with
     | [] => ret tt
     | _ => for_each processEscrowContract escrowAddresses
     end)
    (fun _ => ret tt).

End Monitoring.

End AgentService.

(** ** Sample accounts and deployments used by the concrete checks *)

Definition alice : address := 1.          (* payer / depositor *)
Definition bob : address := 2.            (* payee / beneficiary *)
Definition agent : address := 3.          (* authorized settlement agent *)
Definition feeCollector : address := 4.   (* x402pay fee address *)
Definition factoryAddr : address := 5.
Definition escrowAddr : address := 6.

Definition one_eth : Z := 10 ^ 18.
Definition settle_fee : Z := 10 ^ 15.     (* 0.001 ETH *)
Definition t0 : Z := 1700000000.

Definition accept_all : address -> Z -> bool := fun _ _ => true.

Definition of_result {A} (r : Result A) (dflt : A) : A :=
  match r with Ok a _ => a | Revert _ => dflt end.

Definition is_ok {A} (r : Result A) : bool :=
  match r with Ok _ _ => true | Revert _ => false end.

(** A fresh agreement: alice escrows 1 ETH for bob. *)
Definition demo_escrow : Escrow :=
  mkEscrow (mkAgreement alice bob one_eth 1 42 Pending t0 0) agent feeCollector settle_fee 0.

Definition demo_factory : EscrowFactory.Factory :=
  EscrowFactory.mkFactory factoryAddr feeCollector settle_fee agent (fun _ => false) [] 0 0.

(** Sum of the values sent by a call. *)
Definition total_sent (transfers : list (address * Z)) : Z :=
  fold_right (fun t acc => snd t + acc) 0 transfers.

(** The revert reasons of the argument checks of [createEscrow], in both
    factories, and of the [Escrow] constructor. *)
Definition creation_check_reasons : list string :=
  ["Invalid payee address"; "Amount must be greater than 0"; "Incorrect amount sent";
   "Invalid condition type"].
Definition creation_check_reasons_fee : list string :=
  ["Invalid payee address"; "Amount must be greater than 0"; "Insufficient ETH for creation fee";
   "Invalid condition type"; "Incorrect escrow amount after fee deduction"].
Definition constructor_reasons : list string :=
  ["OwnableInvalidOwner"; "Invalid payer address"; "Invalid payee address"; "Amount must be greater than 0";
   "Invalid agent address"; "Invalid fee address"; "Fee amount must be less than total amount"].

(** ** Escrow: value flows of a sequence of transactions *)

(** [run], also returning the ether the contract received through
    [receive] and the transfers it made, in order. *)
Fixpoint run_flows (accepts : address -> Z -> bool) (e : Escrow) (cs : list Call)
    : Escrow * Z * list (address * Z) :=
  match cs with
  | [] => (e, 0, [])
  | c :: cs' =>
      match step accepts e c with
      | Ok e' tr =>
          let '(e'', dep, out) := run_flows accepts e' cs' in
          (e'', (match c with CallReceive _ v => v | _ => 0 end) + dep, (tr ++ out)%list)
      | Revert _ => run_flows accepts e cs'
      end
  end.

(** ** ValidationService: string inputs *)

(** JavaScript strings whose code units are all below 256, as Rocq
    strings of 8-bit characters. *)
Module ValidationStrings.

(** The characters [String.prototype.trim] removes in that range:
    TAB, LF, VT, FF, CR, SPACE and NO-BREAK SPACE. *)
Definition is_js_space (c : ascii) : bool :=
  let n := nat_of_ascii c in
  ((9 <=? n)%nat && (n <=? 13)%nat) || (n =? 32)%nat || (n =? 160)%nat.

Fixpoint drop_spaces (l : list ascii) : list ascii :=
  match l with
  | [] => []
  | c :: l' => if is_js_space c then drop_spaces l' else l
  end.

Definition trim_list (l : list ascii) : list ascii :=
  rev (drop_spaces (rev (drop_spaces l))).

(** [s.trim()] *)
Definition trim (s : string) : string :=
  string_of_list_ascii (trim_list (list_ascii_of_string s)).

(** [s.includes(c)] for a one-character [c] *)
Definition includes_char (s : string) (c : ascii) : bool :=
  existsb (fun d => Ascii.eqb d c) (list_ascii_of_string s).

(** [s.replace(/[...]/g, '')]: drop every character of the class. *)
Definition remove_chars (cls : list ascii) (s : string) : string :=
  string_of_list_ascii
    (filter (fun d => negb (existsb (fun c => Ascii.eqb d c) cls)) (list_ascii_of_string s)).

Definition quote : ascii := ascii_of_nat 34.

(** Decimal text of a natural number, as template literals print it. *)
Fixpoint uint_to_string (d : Decimal.uint) : string :=
  match d with
  | Decimal.Nil => ""
  | Decimal.D0 d => String "0" (uint_to_string d)
  | Decimal.D1 d => String "1" (uint_to_string d)
  | Decimal.D2 d => String "2" (uint_to_string d)
  | Decimal.D3 d => String "3" (uint_to_string d)
  | Decimal.D4 d => String "4" (uint_to_string d)
  | Decimal.D5 d => String "5" (uint_to_string d)
  | Decimal.D6 d => String "6" (uint_to_string d)
  | Decimal.D7 d => String "7" (uint_to_string d)
  | Decimal.D8 d => String "8" (uint_to_string d)
  | Decimal.D9 d => String "9" (uint_to_string d)
  end.
Definition nat_to_string (n : nat) : string := uint_to_string (Nat.to_uint n).

(** [validateString(value, fieldName, minLength, maxLength)] on a string
    [value]; [!value] holds exactly for the empty string. *)
Definition validateString (value fieldName : string) (minLength maxLength : nat) : Exc string :=
  if String.eqb value "" then Throw (fieldName ++ " is required")
  else
    let trimmed := trim value in
    if (String.length trimmed <? minLength)%nat then
      Throw (fieldName ++ " must be at least " ++ nat_to_string minLength ++ " characters")
    else if (maxLength <? String.length trimmed)%nat then
      Throw (fieldName ++ " cannot exceed " ++ nat_to_string maxLength ++ " characters")
    else if includes_char trimmed "<" || includes_char trimmed ">" then
      Throw (fieldName ++ " contains invalid characters")
    else Done trimmed.

(** [sanitizeInput(input)] on a string [input]. *)
Definition sanitizeInput (input : string) : string :=
  trim (remove_chars ["'"%char; quote] (remove_chars ["<"%char; ">"%char] input)).

End ValidationStrings.

(** ** BlockchainService.validateGasParams and settleEscrow *)

Module BlockchainService.

Definition maxGasPrice : Z := 100 * 10 ^ 9.           (* ethers.parseUnits('100', 'gwei') *)
Definition minAgentBalance : Z := 10 ^ 15.            (* ethers.parseEther('0.001') *)

(** [ValidationService.validateGasParams(gasLimit, gasPrice)]: [None] is a
    falsy argument (the [null] [settleEscrow] passes as [gasPrice]); a
    present one is converted with [BigInt]. *)
Definition validateGasParams (gasLimit gasPrice : option Z) : Exc (option Z * option Z) :=
  ValidationService.bindE
    (match gasLimit with
     | Some gl =>
         if gl <=? 0 then Throw "Gas limit must be greater than 0"
         else if gl >? 10000000 then Throw "Gas limit too high"
         else Done tt
     | None => Done tt
     end) (fun _ =>
  ValidationService.bindE
    (match gasPrice with
     | Some gp =>
         if gp <=? 0 then Throw "Gas price must be greater than 0"
         else if gp >? 1000 * 10 ^ 9 then Throw "Gas price too high"
         else Done tt
     | None => Done tt
     end) (fun _ =>
  Done (gasLimit, gasPrice))).

(** The chain after a transaction changed the storage of one escrow. *)
Definition chain_set (chain : address -> option Escrow) (a : address) (e : Escrow)
    : address -> option Escrow :=
  fun a' => if a' =? a then Some e else chain a'.

Section Settle.

(** Whether an account accepts a plain transfer, as in [settle]. *)
Variable accepts : address -> Z -> bool.
(** [BigInt(Math.floor(Number(gasEstimate) * this.gasBuffer))], computed in
    floating point. *)
Variable bufferedGas : Z -> Z.
(** [ethers.formatEther], used only in messages. *)
Variable formatEther : Z -> string.

(** [settleEscrow(escrowAddress)]. [chain] is the ledger the agent reads and
    writes, [nowSec] the clock of the validation, [blockTime] the
    timestamp of the block the simulation and the transaction run in,
    [agentAddr] and [agentBal] the wallet, [gasEstimate] the value of
    [estimateGas], [gasPrice] the network's [feeData.gasPrice], and
    [confirmed] whether the receipt arrives before the five-minute timeout.
    The result is the outcome ([Done true] is [{ success: true, ... }]) and
    the ledger afterwards: a transaction that was mined stays mined even
    when the call throws. The details returned by [getEscrowDetails] carry
    no [statusText] (the validated object has no such field), so the
    status message prints [undefined]. *)
Definition settleEscrow (chain : address -> option Escrow)
    (nowSec blockTime : Z) (agentAddr : address) (agentBal gasEstimate gasPrice : Z)
    (confirmed : bool) (escrowAddress : address)
    : Exc bool * (address -> option Escrow) :=
  match ValidationService.validateAddress escrowAddress "escrowAddress" with
  | Throw m => (Throw m, chain)
  | Done _ =>
  match ValidationService.getEscrowDetails chain nowSec escrowAddress with
  | Throw m => (Throw m, chain)
  | Done details =>
  if negb (details.(ValidationService.status) =? 1) then
    (Throw "Cannot settle escrow. Current status: undefined", chain)
  else
  match chain escrowAddress with
  | None => (Throw "could not decode result data", chain)
  | Some e =>
  (* contract.settle.staticCall() *)
  match settle accepts e agentAddr blockTime with
  | Revert r => (Throw ("Settlement would fail: " ++ r), chain)
  | Ok _ _ =>
  if agentBal <? minAgentBalance then
    (Throw ("Insufficient agent balance: " ++ formatEther agentBal ++
            " ETH (minimum 0.001 ETH required)"), chain)
  else
  let gasLimit := bufferedGas gasEstimate in
  match validateGasParams (Some gasLimit) None with
  | Throw m => (Throw m, chain)
  | Done _ =>
  let finalGasPrice := if gasPrice >? maxGasPrice then maxGasPrice else gasPrice in
  let txCost := gasLimit * finalGasPrice in
  if agentBal <? txCost then
    (Throw ("Insufficient balance for transaction. Required: " ++ formatEther txCost ++
            " ETH, Available: " ++ formatEther agentBal ++ " ETH"), chain)
  else
  (* contract.settle(txParams), mined in the same state *)
  match settle accepts e agentAddr blockTime with
  | Revert r => (Throw ("transaction execution reverted: " ++ r), chain)
  | Ok e' _ =>
      let chain' := chain_set chain escrowAddress e' in
      if confirmed then (Done true, chain') else (Throw "Transaction timeout", chain')
  end
  end
  end
  end
  end
  end.

End Settle.

End BlockchainService.

(** ** AgentService: the agreement cache *)

Module AgentCache.

Import ConditionService.

(** [this.agreementCache], a [Map] keyed by the escrow address as a
    string, compared as JavaScript compares strings (case matters), and
    [this.isRunning]. *)
Definition Cache := string -> option AgreementData.

Record State := mkState {
  isRunning : bool;
  agreementCache : Cache
}.

(** [new AgentService()] *)
Definition new_AgentService : State := mkState false (fun _ => None).

(** [initialize()], on its successful path. *)
Definition initialize (st : State) : State := mkState true st.(agreementCache).

(** [Map.prototype.set] *)
Definition cache_set (c : Cache) (k : string) (v : AgreementData) : Cache :=
  fun k' => if String.eqb k' k then Some v else c k'.

(** [String.prototype.toLowerCase] on one character: the letters A..Z
    become a..z, everything else is kept (addresses are ASCII). *)
Definition lower_char (c : ascii) : ascii :=
  let n := nat_of_ascii c in
  if (65 <=? n)%nat && (n <=? 90)%nat then ascii_of_nat (n + 32) else c.

(** [String.prototype.toLowerCase] *)
Fixpoint toLowerCase (s : string) : string :=
  match s with
  | EmptyString => EmptyString
  | String c s' => String (lower_char c) (toLowerCase s')
  end.

(** The string [ValidationService.validateAddress] returns for a valid
    address: [address.toLowerCase()]. It is the [escrowAddress] of the
    details [getEscrowDetails] returns, so it is the key under which
    [processEscrowContract] reads the cache. *)
Definition validateAddress (address : string) : string := toLowerCase address.

(** [s.slice(-6)]: the last six characters, or all of a shorter string. *)
Definition slice_last6 (s : string) : string :=
  substring (String.length s - 6) 6 s.

(** The record [getSimulatedAgreementData] builds (the fields
    [checkCondition] reads). [createdAtSec] is [escrowDetails.createdAt]:
    [None] when the details object has none, where [undefined * 1000] is
    [NaN], which every checker treats as it treats a missing field (it is
    falsy and [NaN || now] is [now]). [prNumber] is
    [Math.floor(Math.random() * 100)] and [addrSuffix] is
    [escrowAddress.slice(-6)]. *)
Definition simulatedData (createdAtSec : option Z) (prNumber : Z) (addrSuffix : string)
    : AgreementData :=
  mkAgreementData (option_map (fun c => c * 1000) createdAtSec) false false false false false
    (Some ("https://github.com/trustflow/demo/pull/" ++
           ValidationStrings.nat_to_string (Z.to_nat prNumber)))
    (Some "weather-api.com/temp")
    (Some ("Event_" ++ addrSuffix)).

(** [getSimulatedAgreementData(escrowDetails)], with
    [cacheKey = escrowDetails.escrowAddress]. *)
Definition getSimulatedAgreementData (st : State) (cacheKey : string)
    (createdAtSec : option Z) (prNumber : Z) : AgreementData * State :=
  match st.(agreementCache) cacheKey with
  | Some d => (d, st)
  | None =>
      let d := simulatedData createdAtSec prNumber (slice_last6 cacheKey) in
      (d, mkState st.(isRunning) (cache_set st.(agreementCache) cacheKey d))
  end.

Definition set_flag (conditionType : Z) (d : AgreementData) : AgreementData :=
  let c := d.(createdAt) in
  let f0 := d.(conditionMet) in
  let f1 := d.(taskCompleted) in
  let f2 := d.(prMerged) in
  let f3 := d.(apiConditionMet) in
  let f4 := d.(customEventTriggered) in
  let g := d.(githubPrUrl) in
  let ap := d.(apiEndpoint) in
  let ev := d.(customEventName) in
  if conditionType =? 0 then mkAgreementData c true f1 f2 f3 f4 g ap ev
  else if conditionType =? 1 then mkAgreementData c f0 true f2 f3 f4 g ap ev
  else if conditionType =? 2 then mkAgreementData c f0 f1 true f3 f4 g ap ev
  else if conditionType =? 3 then mkAgreementData c f0 f1 f2 true f4 g ap ev
  else if conditionType =? 4 then mkAgreementData c f0 f1 f2 f3 true g ap ev
  else d.

(** [triggerCondition(escrowAddress, conditionType)]: the record is fetched
    under the argument as given (or built from
    [{ escrowAddress, conditionType }], with no [createdAt]), the type's
    flag is set on it and it is stored back under the same key. The
    argument is not passed through [validateAddress]. *)
Definition triggerCondition (st : State) (escrowAddress : string) (conditionType : Z)
    (prNumber : Z) : State :=
  let '(d, st1) := getSimulatedAgreementData st escrowAddress None prNumber in
  mkState st1.(isRunning) (cache_set st1.(agreementCache) escrowAddress (set_flag conditionType d)).

End AgentCache.

(** One year in seconds, the window of [validateTimestamp]. *)
Definition year_s : Z := 365 * 24 * 60 * 60.

(** * Proofs *)

(** Case analysis on the [require]s and [if]s of a contract function. *)
Ltac split_requires :=
  repeat match goal with
  | |- context [if ?c then _ else _] => let H := fresh "Hc" in destruct c eqn:H
  | H : context [if ?c then _ else _] |- _ => let H' := fresh "Hc" in destruct c eqn:H'
  end.

(** Turn the boolean comparisons produced by [split_requires] into
    arithmetic facts. *)
Ltac zbool :=
  repeat match goal with
  | H : (_ =? _) = true |- _ => apply Z.eqb_eq in H
  | H : (_ =? _) = false |- _ => apply Z.eqb_neq in H
  | H : (_ <=? _) = true |- _ => apply Z.leb_le in H
  | H : (_ <=? _) = false |- _ => apply Z.leb_gt in H
  | H : (_ <? _) = true |- _ => apply Z.ltb_lt in H
  | H : (_ <? _) = false |- _ => apply Z.ltb_ge in H
  | H : (_ >? _) = true |- _ => rewrite Z.gtb_ltb in H
  | H : (_ >? _) = false |- _ => rewrite Z.gtb_ltb in H
  | H : (_ >=? _) = true |- _ => rewrite Z.geb_leb in H
  | H : (_ >=? _) = false |- _ => rewrite Z.geb_leb in H
  | H : negb _ = true |- _ => apply negb_true_iff in H
  | H : negb _ = false |- _ => apply negb_false_iff in H
  end.

Lemma Escrow_constructor_revert p q am ct h ag fa fee now bal0 r :
  Escrow_constructor p q am ct h ag fa fee now bal0 = Revert r -> In r constructor_reasons.
Proof.
  unfold Escrow_constructor, require. intros H.
  split_requires; inversion H; subst; simpl; tauto.
Qed.

Lemma Escrow_constructor_fields p q am ct h ag fa fee now bal0 e tr :
  Escrow_constructor p q am ct h ag fa fee now bal0 = Ok e tr ->
  e = mkEscrow (mkAgreement p q am ct h Pending now 0) ag fa fee bal0 /\
  p <> address0 /\ q <> address0 /\ 0 < am /\ fee < am.
Proof.
  unfold Escrow_constructor, require, address0.
  intros Hk; split_requires; try discriminate.
  inversion Hk; subst.
  rewrite negb_true_iff, Z.eqb_neq in *.
  rewrite Z.gtb_lt in *. rewrite Z.ltb_lt in *.
  repeat split; auto.
Qed.

Lemma receive_only_payer e s v :
  s <> e.(agreement).(payer) -> is_ok (receive e s v) = false.
Proof.
  intros Hs. unfold receive, require.
  destruct (Z.eqb_spec s (payer (agreement e))); [contradiction | reflexivity].
Qed.

(** The creation-fee factory has the same funding step, with the same
    outcome. *)
Lemma EscrowFactoryFee_createEscrow_always_reverts accepts (f : EscrowFactoryFee.Factory)
    newAddr newBal sender value now payee amt ct h :
  sender <> EscrowFactoryFee.self f ->
  is_ok (EscrowFactoryFee.createEscrow accepts f newAddr newBal sender value now payee amt ct h) = false.
Proof.
  intros Hs. unfold EscrowFactoryFee.createEscrow, require.
  split_requires; try reflexivity;
  destruct (Escrow_constructor _ _ _ _ _ _ _ _ _ _) as [e tr|r] eqn:Hctor; try reflexivity;
  apply Escrow_constructor_fields in Hctor as [-> _];
  unfold receive, require; simpl;
  destruct (Z.eqb_spec (EscrowFactoryFee.self f) sender); first [congruence | reflexivity].
Qed.

(** C1. Claim: a well-formed [createEscrow] call succeeds atomically, creating,
    funding and registering a new escrow. In the code, every call from an
    account other than the factory itself reverts: [new Escrow] records
    [msg.sender] as payer, then the factory sends the escrowed value with
    [escrowAddress.call{value: _amount}("")], whose [receive] requires the
    sender to be the payer and so rejects the factory; the
    [require(success, "Transfer to escrow failed")] then reverts the whole
    call. *)
Theorem createEscrow_always_reverts (f : EscrowFactory.Factory)
    newAddr newBal sender value now payee amt ct h :
  sender <> EscrowFactory.self f ->
  is_ok (EscrowFactory.createEscrow f newAddr newBal sender value now payee amt ct h) = false.
Proof.
  intros Hs. unfold EscrowFactory.createEscrow, require.
  split_requires; try reflexivity;
  destruct (Escrow_constructor _ _ _ _ _ _ _ _ _ _) as [e tr|r] eqn:Hctor; try reflexivity;
  apply Escrow_constructor_fields in Hctor as [-> _];
  unfold receive, require; simpl;
  destruct (Z.eqb_spec (EscrowFactory.self f) sender); first [congruence | reflexivity].
Qed.

(** Witness for C1: alice escrows 1 ETH for bob with a Task condition and
    the exact value attached; the call reverts with "Transfer to escrow
    failed". *)
Lemma createEscrow_always_reverts_witness :
  alice <> EscrowFactory.self demo_factory /\
  is_ok (EscrowFactory.createEscrow demo_factory escrowAddr 0 alice one_eth t0 bob one_eth 1 42) = false /\
  EscrowFactory.createEscrow demo_factory escrowAddr 0 alice one_eth t0 bob one_eth 1 42
    = Revert "Transfer to escrow failed".
Proof.
  split; [unfold alice, demo_factory; simpl; discriminate |].
  split; [apply createEscrow_always_reverts; unfold alice, demo_factory; simpl; discriminate |].
  vm_compute. reflexivity.
Defined.

(** ** Settlement *)

Lemma settle_ok_inv accepts e s now e' tr :
  settle accepts e s now = Ok e' tr ->
  s = e.(authorizedAgent) /\
  (e.(agreement).(status) = Pending \/ e.(agreement).(status) = Escrowed) /\
  e.(x402payFeeAmount) <= e.(agreement).(amount) /\
  accepts e.(agreement).(payee) (e.(agreement).(amount) - e.(x402payFeeAmount)) = true /\
  accepts e.(x402payFeeAddress) e.(x402payFeeAmount) = true /\
  e' = with_agreement e (set_settled e.(agreement) now)
         (e.(balance) - (e.(agreement).(amount) - e.(x402payFeeAmount)) - e.(x402payFeeAmount)) /\
  tr = [(e.(agreement).(payee), e.(agreement).(amount) - e.(x402payFeeAmount));
        (e.(x402payFeeAddress), e.(x402payFeeAmount))].
Proof.
  unfold settle, require, send_value.
  intros H; split_requires; try discriminate.
  inversion H; subst; clear H.
  apply Z.eqb_eq in Hc.
  apply Z.leb_le in Hc2.
  apply andb_true_iff in Hc3 as [_ Hp].
  apply andb_true_iff in Hc4 as [_ Hf].
  repeat split; auto.
  destruct (status (agreement e)); simpl in *; auto; discriminate.
Qed.



(** C3. A successful [settle] sends [amount - x402payFeeAmount] to the payee
    and then [x402payFeeAmount] to the fee address, in that order; the two
    sum to [amount]; both transfers were accepted, and if either recipient
    rejects its transfer the whole call reverts. *)
Theorem settle_conservation accepts e s now :
  (forall e' tr, settle accepts e s now = Ok e' tr ->
     tr = [(e.(agreement).(payee), e.(agreement).(amount) - e.(x402payFeeAmount));
           (e.(x402payFeeAddress), e.(x402payFeeAmount))] /\
     total_sent tr = e.(agreement).(amount) /\
     accepts e.(agreement).(payee) (e.(agreement).(amount) - e.(x402payFeeAmount)) = true /\
     accepts e.(x402payFeeAddress) e.(x402payFeeAmount) = true) /\
  (accepts e.(agreement).(payee) (e.(agreement).(amount) - e.(x402payFeeAmount)) = false ->
     is_ok (settle accepts e s now) = false) /\
  (accepts e.(x402payFeeAddress) e.(x402payFeeAmount) = false ->
     is_ok (settle accepts e s now) = false).
Proof.
  split; [|split].
  - intros e' tr H.
    apply settle_ok_inv in H as (_ & _ & _ & Hp & Hf & _ & ->).
    repeat split; auto. unfold total_sent; simpl. lia.
  - intros Hrej. destruct (settle accepts e s now) as [e' tr|r] eqn:H; [|reflexivity].
    apply settle_ok_inv in H as (_ & _ & _ & Hp & _). congruence.
  - intros Hrej. destruct (settle accepts e s now) as [e' tr|r] eqn:H; [|reflexivity].
    apply settle_ok_inv in H as (_ & _ & _ & _ & Hf & _). congruence.
Qed.

(** ** Status transitions and parties *)

(** Every entry point keeps the parties, the amount and the fee. *)
Lemma step_keeps_terms accepts e c e' tr :
  step accepts e c = Ok e' tr ->
  e'.(agreement).(payer) = e.(agreement).(payer) /\
  e'.(agreement).(payee) = e.(agreement).(payee) /\
  e'.(agreement).(amount) = e.(agreement).(amount) /\
  e'.(x402payFeeAmount) = e.(x402payFeeAmount).
Proof.
  destruct c as [s v|s now|s r]; simpl.
  - unfold receive, require. intros H; split_requires; try discriminate.
    inversion H; subst; simpl; auto.
  - intros H. apply settle_ok_inv in H as (_ & _ & _ & _ & _ & -> & _). simpl; auto.
  - unfold initiateDispute, require. intros H; split_requires; try discriminate.
    inversion H; subst; simpl; auto.
Qed.

Lemma run_keeps_terms accepts cs : forall e,
  (run accepts e cs).(agreement).(payer) = e.(agreement).(payer) /\
  (run accepts e cs).(agreement).(payee) = e.(agreement).(payee).
Proof.
  induction cs as [|c cs IH]; intros e; simpl; [auto|].
  destruct (step accepts e c) as [e' tr|r] eqn:H; [|apply IH].
  apply step_keeps_terms in H as (Hp & Hq & _).
  destruct (IH e') as [H1 H2]. split; congruence.
Qed.

(** C4 (code defect). [receive] has no status guard, unlike [settle] and
    [initiateDispute] ([notSettled]): whatever the status, the payer sending
    [amount] again sets it to Escrowed. On the sample agreement, after
    funding and a successful settlement (status Settled), a second deposit
    moves the status back to Escrowed and the agent can settle once more;
    a Disputed agreement is reopened the same way. *)
Theorem receive_reopens_settled :
  (forall e, exists e',
     receive e e.(agreement).(payer) e.(agreement).(amount) = Ok e' [] /\
     e'.(agreement).(status) = Escrowed) /\
  (let e1 := run accept_all demo_escrow [CallReceive alice one_eth; CallSettle agent (t0 + 10)] in
   e1.(agreement).(status) = Settled /\
   is_ok (receive e1 alice one_eth) = true /\
   (of_result (receive e1 alice one_eth) e1).(agreement).(status) = Escrowed /\
   is_ok (settle accept_all (of_result (receive e1 alice one_eth) e1) agent (t0 + 20)) = true) /\
  (let d := run accept_all demo_escrow [CallReceive alice one_eth; CallInitiateDispute bob "late"] in
   d.(agreement).(status) = Disputed /\
   (run accept_all d [CallReceive alice one_eth]).(agreement).(status) = Escrowed).
Proof.
  split; [|split].
  - intros e. eexists. unfold receive, require.
    rewrite !Z.eqb_refl. split; reflexivity.
  - vm_compute. repeat split.
  - vm_compute. split; reflexivity.
Qed.

(** C5 (code defect). The constructor rejects a zero payer or payee, and
    no entry point changes the parties afterwards, but nothing rejects
    [payer = payee]: an escrow whose payer is also its payee is created
    (by direct deployment, and the factory's checks also let a caller name
    itself as payee; its call then fails only at the funding step, see
    C1). *)
Theorem escrow_same_party_accepted :
  (forall p q am ct h ag fa fee now bal0 e tr,
     Escrow_constructor p q am ct h ag fa fee now bal0 = Ok e tr ->
     forall accepts cs,
       (run accepts e cs).(agreement).(payer) = p /\ (run accepts e cs).(agreement).(payee) = q /\
       p <> address0 /\ q <> address0) /\
  is_ok (Escrow_constructor alice alice one_eth 1 42 agent feeCollector settle_fee t0 0) = true /\
  EscrowFactory.createEscrow demo_factory escrowAddr 0 alice one_eth t0 alice one_eth 1 42
    = Revert "Transfer to escrow failed".
Proof.
  split.
  - intros p q am ct h ag fa fee now bal0 e tr H accepts cs.
    apply Escrow_constructor_fields in H as (-> & Hp & Hq & _).
    destruct (run_keeps_terms accepts cs
                (mkEscrow (mkAgreement p q am ct h Pending now 0) ag fa fee bal0)) as [H1 H2].
    simpl in *. auto.
  - split; vm_compute; reflexivity.
Qed.

(** ** Creation checks *)

(** C6. The creation-fee factory (the one the deploy script deploys, with
    [x402payCreationFee]) checks [msg.value >= x402payCreationFee] and
    [msg.value - x402payCreationFee == _amount]: when the attached value
    differs from [_amount + x402payCreationFee] the call reverts in its
    argument checks, before anything is deployed or paid, and when it
    equals it neither value check fires. [EscrowFactory.sol] charges no
    creation fee and checks [msg.value == _amount] the same way. A revert
    discards the whole call, attached value included. *)
Theorem createEscrow_value_must_match :
  (forall accepts (f : EscrowFactoryFee.Factory) newAddr newBal sender value now payee amt ct h,
     value <> amt + EscrowFactoryFee.x402payCreationFee f ->
     exists r, EscrowFactoryFee.createEscrow accepts f newAddr newBal sender value now payee amt ct h
               = Revert r /\ In r creation_check_reasons_fee) /\
  (forall accepts (f : EscrowFactoryFee.Factory) newAddr newBal sender value now payee amt ct h,
     value = amt + EscrowFactoryFee.x402payCreationFee f ->
     EscrowFactoryFee.createEscrow accepts f newAddr newBal sender value now payee amt ct h
       <> Revert "Insufficient ETH for creation fee" /\
     EscrowFactoryFee.createEscrow accepts f newAddr newBal sender value now payee amt ct h
       <> Revert "Incorrect escrow amount after fee deduction") /\
  (forall (f : EscrowFactory.Factory) newAddr newBal sender value now payee amt ct h,
     value <> amt ->
     exists r, EscrowFactory.createEscrow f newAddr newBal sender value now payee amt ct h
               = Revert r /\ In r creation_check_reasons).
Proof.
  split; [|split].
  - intros accepts f newAddr newBal sender value now payee amt ct h Hv.
    unfold EscrowFactoryFee.createEscrow, require.
    split_requires; zbool; try lia;
      eexists; split; try reflexivity; simpl; tauto.
  - intros accepts f newAddr newBal sender value now payee amt ct h Hv.
    unfold EscrowFactoryFee.createEscrow, require.
    split_requires; zbool; try lia;
      try (split; discriminate);
      destruct (Escrow_constructor _ _ _ _ _ _ _ _ _ _) as [e tr|r] eqn:Hctor;
      try (destruct (receive _ _ _); split; discriminate);
      apply Escrow_constructor_revert in Hctor;
      unfold constructor_reasons in Hctor; simpl in Hctor;
      split; intros Heq; inversion Heq; subst;
      repeat (destruct Hctor as [Hctor|Hctor]; [discriminate|]); contradiction.
  - intros f newAddr newBal sender value now payee amt ct h Hv.
    unfold EscrowFactory.createEscrow, require.
    split_requires; zbool; try lia;
      eexists; split; try reflexivity; simpl; tauto.
Qed.

(** C7 (code defect). Both factories check [_conditionType <= 2], while the
    rest of the repository works with five condition types [0..4]: the
    frontend form offers 3 (External API Call) and 4 (Custom Event) and
    passes them to [createEscrow], [ValidationService.validateConditionType]
    accepts [0..4] and [checkCondition] has branches for 3 and 4. Whatever
    the other arguments, [createEscrow] reverts with "Invalid condition
    type" for [conditionType] 3 or 4 once the earlier checks pass, and never
    for [0..2]. *)
Theorem createEscrow_rejects_condition_types_3_4 :
  (forall (f : EscrowFactory.Factory) newAddr newBal sender now payee amt h ct,
     payee <> address0 -> 0 < amt -> 2 < ct ->
     EscrowFactory.createEscrow f newAddr newBal sender amt now payee amt ct h
       = Revert "Invalid condition type") /\
  (forall (f : EscrowFactory.Factory) newAddr newBal sender value now payee amt h ct,
     0 <= ct <= 2 ->
     EscrowFactory.createEscrow f newAddr newBal sender value now payee amt ct h
       <> Revert "Invalid condition type") /\
  EscrowFactory.createEscrow demo_factory escrowAddr 0 alice one_eth t0 bob one_eth 3 42
    = Revert "Invalid condition type" /\
  EscrowFactory.createEscrow demo_factory escrowAddr 0 alice one_eth t0 bob one_eth 4 42
    = Revert "Invalid condition type" /\
  ValidationService.validateConditionType 3 "conditionType" = Done 3 /\
  ValidationService.validateConditionType 4 "conditionType" = Done 4.
Proof.
  split; [|split].
  - intros f newAddr newBal sender now payee amt h ct Hp Ha Hct.
    unfold EscrowFactory.createEscrow, require, address0 in *.
    apply Z.eqb_neq in Hp. rewrite Hp, Z.eqb_refl. simpl.
    replace (amt >? 0) with true by (symmetry; rewrite Z.gtb_ltb; apply Z.ltb_lt; lia).
    replace (ct <=? 2) with false by (symmetry; apply Z.leb_gt; lia).
    reflexivity.
  - intros f newAddr newBal sender value now payee amt h ct Hct.
    unfold EscrowFactory.createEscrow, require.
    replace (ct <=? 2) with true by (symmetry; apply Z.leb_le; lia).
    split_requires; try discriminate;
      destruct (Escrow_constructor _ _ _ _ _ _ _ _ _ _) as [e tr|r] eqn:Hctor;
      try (destruct (receive _ _ _); discriminate);
      apply Escrow_constructor_revert in Hctor;
      unfold constructor_reasons in Hctor; simpl in Hctor;
      intros Heq; inversion Heq; subst;
      repeat (destruct Hctor as [Hctor|Hctor]; [discriminate|]); contradiction.
  - vm_compute. repeat split.
Qed.

(** ** Condition evaluation *)

(** C8 counterexample: a Task-completion agreement whose record has every
    flag [false] (the record [getSimulatedAgreementData] builds) is
    reported as met once three minutes have passed since [createdAt]. *)
Lemma checkCondition_timer_counterexample :
  let d := ConditionService.mkAgreementData (Some (t0 * 1000)) false false false false false
             (Some "https://github.com/trustflow/demo/pull/7") (Some "weather-api.com/temp")
             (Some "Event_c0ffee") in
  ConditionService.recorded_flag 1 d = false /\
  ConditionService.checkCondition 1 42 (Some d) (t0 * 1000 + 3 * 60 * 1000 + 1) = true.
Proof. vm_compute. split; reflexivity. Qed.

(** The demo timer fires only on a set, non-zero [createdAt]. *)
Lemma created_timer now D d (HD : 0 <= D) :
  (now >? ConditionService.createdAt_or_now (Some d) now + D) = true <->
  exists c, d.(ConditionService.createdAt) = Some c /\ c <> 0 /\ now > c + D.
Proof.
  unfold ConditionService.createdAt_or_now. rewrite Z.gtb_ltb, Z.ltb_lt.
  destruct (ConditionService.createdAt d) as [c|].
  - destruct (Z.eqb_spec c 0) as [->|Hc].
    + split; [lia | intros (c' & Hc' & Hnz & _); inversion Hc'; subst; contradiction].
    + split; [intros H; exists c; repeat split; auto; lia
             | intros (c' & Hc' & _ & Hgt); inversion Hc'; subst; lia].
  - split; [lia | intros (c' & Hc' & _); discriminate].
Qed.

Lemma created_timer_task now D d :
  (if ConditionService.truthyZ d.(ConditionService.createdAt) then
     match d.(ConditionService.createdAt) with Some c => now >? c + D | None => false end
   else false) = true <->
  exists c, d.(ConditionService.createdAt) = Some c /\ c <> 0 /\ now > c + D.
Proof.
  unfold ConditionService.truthyZ.
  destruct (ConditionService.createdAt d) as [c|].
  - destruct (Z.eqb_spec c 0) as [->|Hc]; simpl.
    + split; [discriminate | intros (c' & Hc' & Hnz & _); inversion Hc'; subst; contradiction].
    + rewrite Z.gtb_ltb, Z.ltb_lt.
      split; [intros H; exists c; repeat split; auto; lia
             | intros (c' & Hc' & _ & Hgt); inversion Hc'; subst; lia].
  - simpl. split; [discriminate | intros (c' & Hc' & _); discriminate].
Qed.

Lemma flag_or_timer_date (flag timer : bool) (P : Prop) :
  (timer = true <-> P) ->
  (if flag then true else timer) = true <-> flag = true \/ (true = true /\ P).
Proof.
  intros HP. destruct flag; simpl; rewrite ?HP; intuition congruence.
Qed.

(** One branch of [checkCondition]: flag first, then the demo timer. *)
Lemma flag_or_timer (flag pay timer : bool) (P : Prop) :
  (timer = true <-> P) ->
  (if flag then true else if pay then timer else false) = true <->
  flag = true \/ (pay = true /\ P).
Proof.
  intros HP. destruct flag, pay; simpl; rewrite ?HP; intuition congruence.
Qed.

(** C8 (as amended). [checkCondition] returns true exactly when the type is
    one of 0..4, an agreement record is present, and either that type's
    recorded flag is set or the demo timer has fired: the type's payload
    field is present (Date needs none), [createdAt] is set and non-zero,
    and more than [ct + 2] minutes have passed since [createdAt]. Unknown
    types and a missing record give false. It is a pure function of the
    type, the record and the clock: no network call is made. *)
Theorem checkCondition_flag_or_demo_timer ct h ad now :
  ConditionService.checkCondition ct h ad now = true <->
  0 <= ct <= 4 /\
  exists d, ad = Some d /\
    (ConditionService.recorded_flag ct d = true \/
     (ConditionService.timer_payload ct d = true /\
      exists c, d.(ConditionService.createdAt) = Some c /\ c <> 0 /\
                now > c + (ct + 2) * 60 * 1000)).
Proof.
  assert (Hnone : forall b : bool, b = false ->
            b = true <-> 0 <= ct <= 4 /\ exists d, None = Some d /\
              (ConditionService.recorded_flag ct d = true \/
               (ConditionService.timer_payload ct d = true /\
                exists c, d.(ConditionService.createdAt) = Some c /\ c <> 0 /\
                          now > c + (ct + 2) * 60 * 1000))).
  { intros b ->. split; [discriminate | intros (_ & d & Hd & _); discriminate]. }
  assert (Hsome : forall d (b : bool) (Q : Prop), 0 <= ct <= 4 ->
            (b = true <-> Q) ->
            (Q <-> ConditionService.recorded_flag ct d = true \/
               (ConditionService.timer_payload ct d = true /\
                exists c, d.(ConditionService.createdAt) = Some c /\ c <> 0 /\
                          now > c + (ct + 2) * 60 * 1000)) ->
            b = true <-> 0 <= ct <= 4 /\ exists d', Some d = Some d' /\
              (ConditionService.recorded_flag ct d' = true \/
               (ConditionService.timer_payload ct d' = true /\
                exists c, d'.(ConditionService.createdAt) = Some c /\ c <> 0 /\
                          now > c + (ct + 2) * 60 * 1000))).
  { intros d b Q Hct Hb HQ. rewrite Hb, HQ.
    split; [intros H; split; [exact Hct|]; exists d; split; [reflexivity | exact H]
           | intros (_ & d' & Hd & H); inversion Hd; subst; exact H]. }
  destruct (Z.eqb_spec ct 0) as [->|H0];
  [|destruct (Z.eqb_spec ct 1) as [->|H1];
  [|destruct (Z.eqb_spec ct 2) as [->|H2];
  [|destruct (Z.eqb_spec ct 3) as [->|H3];
  [|destruct (Z.eqb_spec ct 4) as [->|H4]]]]].
  - change (ConditionService.checkCondition 0 h ad now)
      with (ConditionService.checkDateCondition h ad now).
    destruct ad as [d|].
    + apply Hsome with (Q := ConditionService.conditionMet d = true \/
          (true = true /\ exists c, d.(ConditionService.createdAt) = Some c /\ c <> 0 /\
                                    now > c + 2 * 60 * 1000)); [lia| |reflexivity].
      apply flag_or_timer_date, created_timer; lia.
    + apply Hnone. unfold ConditionService.checkDateCondition, ConditionService.createdAt_or_now.
      rewrite Z.gtb_ltb. apply Z.ltb_ge. lia.
  - change (ConditionService.checkCondition 1 h ad now)
      with (ConditionService.checkTaskCondition h ad now).
    destruct ad as [d|]; [|apply Hnone; reflexivity].
    apply Hsome with (Q := ConditionService.taskCompleted d = true \/
          (true = true /\ exists c, d.(ConditionService.createdAt) = Some c /\ c <> 0 /\
                                    now > c + 3 * 60 * 1000)); [lia| |reflexivity].
    apply (flag_or_timer _ true), created_timer_task.
  - change (ConditionService.checkCondition 2 h ad now)
      with (ConditionService.checkGithubPRCondition h ad now).
    destruct ad as [d|]; [|apply Hnone; reflexivity].
    apply Hsome with (Q := ConditionService.prMerged d = true \/
          (ConditionService.truthyS d.(ConditionService.githubPrUrl) = true /\
           exists c, d.(ConditionService.createdAt) = Some c /\ c <> 0 /\
                     now > c + 4 * 60 * 1000)); [lia| |reflexivity].
    apply flag_or_timer, created_timer; lia.
  - change (ConditionService.checkCondition 3 h ad now)
      with (ConditionService.checkApiCondition h ad now).
    destruct ad as [d|]; [|apply Hnone; reflexivity].
    apply Hsome with (Q := ConditionService.apiConditionMet d = true \/
          (ConditionService.truthyS d.(ConditionService.apiEndpoint) = true /\
           exists c, d.(ConditionService.createdAt) = Some c /\ c <> 0 /\
                     now > c + 5 * 60 * 1000)); [lia| |reflexivity].
    apply flag_or_timer, created_timer; lia.
  - change (ConditionService.checkCondition 4 h ad now)
      with (ConditionService.checkCustomEventCondition h ad now).
    destruct ad as [d|]; [|apply Hnone; reflexivity].
    apply Hsome with (Q := ConditionService.customEventTriggered d = true \/
          (ConditionService.truthyS d.(ConditionService.customEventName) = true /\
           exists c, d.(ConditionService.createdAt) = Some c /\ c <> 0 /\
                     now > c + 6 * 60 * 1000)); [lia| |reflexivity].
    apply flag_or_timer, created_timer; lia.
  - unfold ConditionService.checkCondition.
    apply Z.eqb_neq in H0, H1, H2, H3, H4. rewrite H0, H1, H2, H3, H4.
    split; [discriminate | intros [Hr _]; lia].
Qed.




(** ** Monitoring cycle *)

Module AgentServiceFacts.

Import ValidationService AgentService.

(** A computation that only appends to the log, and appends the same
    events whatever the log already holds. *)
Definition appends {A} (m : M A) : Prop :=
  forall l, m l = (fst (m []), (l ++ snd (m []))%list).

Lemma ret_appends {A} (a : A) : appends (ret a).
Proof. intros l. unfold ret. simpl. rewrite app_nil_r. reflexivity. Qed.

Lemma lift_appends {A} (x : Exc A) : appends (lift x).
Proof. intros l. unfold lift. simpl. rewrite app_nil_r. reflexivity. Qed.

Lemma emit_appends ev : appends (emit ev).
Proof. intros l. reflexivity. Qed.

Lemma bind_appends {A B} (m : M A) (k : A -> M B) :
  appends m -> (forall a, appends (k a)) -> appends (bind m k).
Proof.
  intros Hm Hk l. unfold bind. rewrite (Hm l), (Hm []).
  destruct (fst (m [])) as [a|e]; simpl.
  - rewrite (Hk a (l ++ snd (m []))%list), (Hk a (snd (m []))). simpl. rewrite app_assoc. reflexivity.
  - reflexivity.
Qed.

Lemma try_catch_appends {A} (m : M A) (h : string -> M A) :
  appends m -> (forall e, appends (h e)) -> appends (try_catch m h).
Proof.
  intros Hm Hh l. unfold try_catch. rewrite (Hm l), (Hm []).
  destruct (fst (m [])) as [a|e]; simpl.
  - reflexivity.
  - rewrite (Hh e (l ++ snd (m []))%list), (Hh e (snd (m []))). simpl. rewrite app_assoc. reflexivity.
Qed.

Ltac appends_tac :=
  repeat first
    [ apply ret_appends | apply lift_appends | apply emit_appends
    | apply bind_appends; intros | apply try_catch_appends; intros
    | match goal with |- appends (if ?b then _ else _) => destruct b end ].

Section Cycle.

Variable getDeployedEscrows : Exc (list address).
Variable getEscrowDetails : address -> Exc Details.
Variable checkCondition : Details -> Exc bool.
Variable blockchainSettleEscrow : address -> Exc bool.

Let process := processEscrowContract getEscrowDetails checkCondition blockchainSettleEscrow.

Lemma process_appends a : appends (process a).
Proof.
  unfold process, processEscrowContract, settleEscrow. appends_tac.
Qed.

Lemma process_total a l : fst (process a l) = Done tt.
Proof.
  unfold process, processEscrowContract, try_catch.
  match goal with |- fst (match ?x with _ => _ end) = _ => destruct x as [[[]|e] l'] end;
  reflexivity.
Qed.

Lemma for_each_process xs : forall l,
  for_each process xs l = (Done tt, (l ++ flat_map (fun a => snd (process a [])) xs)%list).
Proof.
  induction xs as [|x xs IH]; intros l; simpl.
  - unfold ret. rewrite app_nil_r. reflexivity.
  - unfold bind. rewrite (process_appends x l).
    rewrite (process_total x []). rewrite IH, app_assoc. reflexivity.
Qed.

Lemma process_eligible a d :
  getEscrowDetails a = Done d -> d.(status) = 1 -> checkCondition d = Done true ->
  In (Evaluated a) (snd (process a [])) /\ In (SettleAttempted a) (snd (process a [])).
Proof.
  intros Hd Hs Hc.
  unfold process, processEscrowContract, settleEscrow, try_catch, bind, lift, emit, ret.
  rewrite Hd, Hs. simpl. rewrite Hc. simpl.
  destruct (blockchainSettleEscrow a) as [[]|e]; simpl; auto.
Qed.

End Cycle.

(** C9. Per-agreement isolation: once the address list is read, a
    monitoring cycle completes normally and its events are exactly the
    concatenation, in list order, of the events each agreement produces
    when processed on its own; an error thrown while reading, validating,
    evaluating or settling one agreement therefore changes nothing for the
    others. Every listed agreement that reads as Escrowed (status 1) and
    whose condition evaluates to [true] is evaluated and handed to
    [settleEscrow]. *)
Theorem monitor_isolates_agreements getEscrowDetails checkCondition blockchainSettleEscrow addrs :
  let cycle := monitorAgreements (Done addrs) getEscrowDetails checkCondition blockchainSettleEscrow [] in
  let alone a := snd (processEscrowContract getEscrowDetails checkCondition blockchainSettleEscrow a []) in
  fst cycle = Done tt /\
  snd cycle = flat_map alone addrs /\
  (forall a d, In a addrs -> getEscrowDetails a = Done d -> d.(status) = 1 ->
     checkCondition d = Done true ->
     In (Evaluated a) (snd cycle) /\ In (SettleAttempted a) (snd cycle)).
Proof.
  intros cycle alone.
  assert (Hc : cycle = (Done tt, flat_map alone addrs)).
  { unfold cycle, alone, monitorAgreements, try_catch, bind, lift.
    destruct addrs as [|a0 rest] eqn:Ha; [reflexivity|].
    rewrite <- Ha. rewrite for_each_process. reflexivity. }
  rewrite Hc. simpl. split; [reflexivity | split; [reflexivity|]].
  intros a d Hin Hd Hs Hcc.
  destruct (process_eligible getEscrowDetails checkCondition blockchainSettleEscrow a d Hd Hs Hcc)
    as [H1 H2].
  split; apply in_flat_map; exists a; split; assumption.
Qed.

End AgentServiceFacts.

(** ** Amount window of the engine's validation *)

Module ValidationFacts.

Lemma validateAmount_window amt name :
  (exists v, ValidationService.validateAmount amt name = Done v) <->
  ValidationService.minAmount <= amt <= ValidationService.maxAmount.
Proof.
  unfold ValidationService.validateAmount, ValidationService.minAmount, ValidationService.maxAmount.
  split.
  - intros [v Hv]. split_requires; try discriminate; zbool; lia.
  - intros Hr. split_requires; zbool; try lia. eexists; reflexivity.
Qed.

Lemma validateEscrowDetails_amounts d nowSec d' :
  ValidationService.validateEscrowDetails d nowSec = Done d' ->
  (exists v, ValidationService.validateAmount d.(ValidationService.amount) "amount" = Done v) /\
  (exists v, ValidationService.validateAmount d.(ValidationService.balance) "balance" = Done v).
Proof.
  unfold ValidationService.validateEscrowDetails, ValidationService.bindE,
    ValidationService.validateAddress, ValidationService.validateConditionHash.
  intros H. cbn beta iota in H.
  repeat match goal with
  | H : context [match ?x with Done _ => _ | Throw _ => _ end] |- _ =>
      let E := fresh "E" in destruct x eqn:E; cbn beta iota in H; try discriminate
  end.
  split; eexists; reflexivity.
Qed.

Lemma getEscrowDetails_amounts chain nowSec a e d :
  chain a = Some e ->
  ValidationService.getEscrowDetails chain nowSec a = Done d ->
  ValidationService.minAmount <= e.(agreement).(amount) <= ValidationService.maxAmount /\
  ValidationService.minAmount <= e.(balance) <= ValidationService.maxAmount.
Proof.
  intros Hc Hd. unfold ValidationService.getEscrowDetails, ValidationService.bindE,
    ValidationService.validateAddress in Hd.
  rewrite Hc in Hd.
  destruct e as [[pr pe am ct h st ca sa] ag fa fee bal].
  apply validateEscrowDetails_amounts in Hd as [H1 H2]; simpl in *.
  split; [apply (validateAmount_window am "amount") | apply (validateAmount_window bal "balance")]; assumption.
Qed.

End ValidationFacts.

(** C10. [ValidationService.validateAmount] accepts exactly the amounts in
    [[0.001 ETH, 1000 ETH]] (in wei); [BlockchainService.getEscrowDetails]
    validates both the agreement's [amount] and the contract's balance with
    it, so reading an escrow whose amount or balance lies outside that
    window throws, and the monitoring cycle then neither evaluates nor
    settles it. The [Escrow] constructor meanwhile accepts any positive
    amount above the fee, such as 2 wei. *)
Theorem engine_rejects_amounts_outside_window :
  (forall amt name,
     (exists v, ValidationService.validateAmount amt name = Done v) <->
     10 ^ 15 <= amt <= 1000 * 10 ^ 18) /\
  (forall chain nowSec a e,
     chain a = Some e ->
     ~ (10 ^ 15 <= e.(agreement).(amount) <= 1000 * 10 ^ 18) \/
     ~ (10 ^ 15 <= e.(balance) <= 1000 * 10 ^ 18) ->
     (exists msg, ValidationService.getEscrowDetails chain nowSec a = Throw msg) /\
     forall checkCondition blockchainSettleEscrow,
       snd (AgentService.processEscrowContract (ValidationService.getEscrowDetails chain nowSec)
              checkCondition blockchainSettleEscrow a []) = []) /\
  is_ok (Escrow_constructor alice bob 2 1 42 agent feeCollector 1 t0 0) = true.
Proof.
  split; [|split].
  - exact ValidationFacts.validateAmount_window.
  - intros chain nowSec a e Hc Hout.
    assert (Hthrow : exists msg, ValidationService.getEscrowDetails chain nowSec a = Throw msg).
    { destruct (ValidationService.getEscrowDetails chain nowSec a) as [d|msg] eqn:Hd;
        [|eexists; reflexivity].
      apply (ValidationFacts.getEscrowDetails_amounts chain nowSec a e d Hc) in Hd.
      unfold ValidationService.minAmount, ValidationService.maxAmount in Hd. tauto. }
    split; [exact Hthrow|].
    intros cc bse. destruct Hthrow as [msg Hm].
    unfold AgentService.processEscrowContract, AgentService.try_catch, AgentService.bind,
      AgentService.lift, AgentService.ret.
    rewrite Hm. reflexivity.
  - vm_compute. reflexivity.
Qed.

(** * Further properties of the contracts and the agent *)

(** ** Escrow.sol *)

Lemma total_sent_app l1 l2 : total_sent (l1 ++ l2) = total_sent l1 + total_sent l2.
Proof. induction l1 as [|[a v] l1 IH]; simpl; [reflexivity | rewrite IH; lia]. Qed.

(** Every entry point keeps all the fixed terms of the agreement. *)
Lemma step_keeps_all_terms accepts e c e' tr :
  step accepts e c = Ok e' tr ->
  e'.(agreement).(payer) = e.(agreement).(payer) /\
  e'.(agreement).(payee) = e.(agreement).(payee) /\
  e'.(agreement).(amount) = e.(agreement).(amount) /\
  e'.(agreement).(conditionType) = e.(agreement).(conditionType) /\
  e'.(agreement).(conditionDetailsHash) = e.(agreement).(conditionDetailsHash) /\
  e'.(agreement).(createdAt) = e.(agreement).(createdAt) /\
  e'.(authorizedAgent) = e.(authorizedAgent) /\
  e'.(x402payFeeAddress) = e.(x402payFeeAddress) /\
  e'.(x402payFeeAmount) = e.(x402payFeeAmount).
Proof.
  destruct c as [s v|s now|s r]; simpl.
  - unfold receive, require. intros H; split_requires; try discriminate.
    inversion H; subst; simpl; auto 10.
  - intros H. apply settle_ok_inv in H as (_ & _ & _ & _ & _ & -> & _). simpl; auto 10.
  - unfold initiateDispute, require. intros H; split_requires; try discriminate.
    inversion H; subst; simpl; auto 10.
Qed.

(** The balance after one successful entry point: what [receive] took in,
    minus what was sent; a [settle] never leaves it negative. *)
Lemma step_balance accepts e c e' tr :
  step accepts e c = Ok e' tr ->
  e'.(balance) = e.(balance) + (match c with CallReceive _ v => v | _ => 0 end) - total_sent tr /\
  (match c with
   | CallReceive _ v => v = e.(agreement).(amount) /\ tr = []
   | CallSettle _ _ => 0 <= e'.(balance)
   | CallInitiateDispute _ _ => tr = []
   end).
Proof.
  destruct c as [s v|s now|s r]; simpl.
  - unfold receive, require. intros H; split_requires; try discriminate.
    inversion H; subst; simpl. zbool. split; [lia | auto].
  - unfold settle, require, send_value. intros H; split_requires; try discriminate.
    inversion H; subst; simpl.
    repeat match goal with
           | Hb : (_ && _) = true |- _ => apply andb_true_iff in Hb as [? ?]
           end.
    zbool. split; lia.
  - unfold initiateDispute, require. intros H; split_requires; try discriminate.
    inversion H; subst; simpl. split; [lia | reflexivity].
Qed.

(** X1. [initiateDispute] succeeds exactly when the caller is the payer or
    the payee and the agreement is not Settled (a Disputed agreement can be
    disputed again). It moves no ether: no transfer is made and the
    balance and [settledAt] are unchanged. It sets the status to Disputed,
    after which [settle] reverts whoever calls it. *)
Theorem initiateDispute_spec accepts e s r :
  (is_ok (initiateDispute e s r) = true <->
     (s = e.(agreement).(payer) \/ s = e.(agreement).(payee)) /\
     e.(agreement).(status) <> Settled) /\
  (forall e' tr, initiateDispute e s r = Ok e' tr ->
     tr = [] /\ e'.(balance) = e.(balance) /\
     e'.(agreement).(status) = Disputed /\
     e'.(agreement).(settledAt) = e.(agreement).(settledAt) /\
     forall s' now, is_ok (settle accepts e' s' now) = false).
Proof.
  destruct e as [[pr pe am ct h st ca sa] ag fa fee bal]. split.
  - unfold initiateDispute, require; simpl.
    destruct (Z.eqb_spec s pr), (Z.eqb_spec s pe), st; simpl;
      split; intros; try tauto; try discriminate; intuition congruence.
  - intros e' tr H. unfold initiateDispute, require in H; simpl in H.
    split_requires; try discriminate. inversion H; subst; clear H; simpl.
    repeat split. intros s' now. unfold settle, require; simpl.
    destruct (s' =? ag); reflexivity.
Qed.

(** X2. Whatever sequence of transactions an escrow goes through, its
    payer, payee, amount, condition type, condition hash, creation time,
    authorized agent, fee address and fee amount stay those it had: only
    the status, [settledAt] and the balance ever change. *)
Theorem run_keeps_agreement_terms accepts cs : forall e,
  let e' := run accepts e cs in
  e'.(agreement).(payer) = e.(agreement).(payer) /\
  e'.(agreement).(payee) = e.(agreement).(payee) /\
  e'.(agreement).(amount) = e.(agreement).(amount) /\
  e'.(agreement).(conditionType) = e.(agreement).(conditionType) /\
  e'.(agreement).(conditionDetailsHash) = e.(agreement).(conditionDetailsHash) /\
  e'.(agreement).(createdAt) = e.(agreement).(createdAt) /\
  e'.(authorizedAgent) = e.(authorizedAgent) /\
  e'.(x402payFeeAddress) = e.(x402payFeeAddress) /\
  e'.(x402payFeeAmount) = e.(x402payFeeAmount).
Proof.
  induction cs as [|c cs IH]; intros e; simpl; [auto 10|].
  destruct (step accepts e c) as [e1 tr|r] eqn:H; [|apply IH].
  apply step_keeps_all_terms in H.
  destruct (IH e1) as (H1 & H2 & H3 & H4 & H5 & H6 & H7 & H8 & H9).
  intuition congruence.
Qed.

(** X3. Conservation of value over any sequence of transactions: the final
    balance is the initial one plus the ether accepted by [receive] minus
    everything the escrow sent. Starting from a non-negative balance (and a
    non-negative amount) the balance never goes negative, so the escrow
    never pays out more than it held plus what it received. *)
Theorem run_flows_conservation accepts cs : forall e,
  0 <= e.(balance) -> 0 <= e.(agreement).(amount) ->
  let '(e', dep, out) := run_flows accepts e cs in
  e' = run accepts e cs /\
  e'.(balance) = e.(balance) + dep - total_sent out /\
  0 <= e'.(balance) /\
  total_sent out <= e.(balance) + dep.
Proof.
  induction cs as [|c cs IH]; intros e Hb Ha; simpl.
  - repeat split; lia.
  - destruct (step accepts e c) as [e1 tr|r] eqn:H; [|apply IH; assumption].
    pose proof (step_keeps_all_terms _ _ _ _ _ H) as (_ & _ & Ham & _).
    pose proof (step_balance _ _ _ _ _ H) as [Hbal Hc].
    assert (Hb1 : 0 <= e1.(balance)).
    { destruct c as [s v|s now|s r]; simpl in *;
        [destruct Hc as [? ->] | | subst tr]; simpl in *; lia. }
    specialize (IH e1 Hb1 ltac:(lia)).
    destruct (run_flows accepts e1 cs) as [[e2 dep] out].
    destruct IH as (-> & Hb2 & Hn & Hle).
    rewrite total_sent_app. repeat split; lia.
Qed.

(** Witness for X3: the sample escrow funded, settled and funded again. *)
Lemma run_flows_conservation_witness :
  0 <= demo_escrow.(balance) /\ 0 <= demo_escrow.(agreement).(amount) /\
  (let '(e', dep, out) := run_flows accept_all demo_escrow
         [CallReceive alice one_eth; CallSettle agent (t0 + 10); CallReceive alice one_eth] in
   e' = run accept_all demo_escrow
         [CallReceive alice one_eth; CallSettle agent (t0 + 10); CallReceive alice one_eth] /\
   e'.(balance) = demo_escrow.(balance) + dep - total_sent out /\
   0 <= e'.(balance) /\
   total_sent out <= demo_escrow.(balance) + dep).
Proof.
  assert (H0 : 0 <= demo_escrow.(balance)) by (vm_compute; discriminate).
  assert (H1 : 0 <= demo_escrow.(agreement).(amount)) by (vm_compute; discriminate).
  split; [exact H0 | split; [exact H1 |]].
  exact (run_flows_conservation accept_all
           [CallReceive alice one_eth; CallSettle agent (t0 + 10); CallReceive alice one_eth]
           demo_escrow H0 H1).
Defined.

(** ** The factories *)

Lemma EscrowFactory_createEscrow_ok f newAddr newBal s v now q am ct h r tr :
  EscrowFactory.createEscrow f newAddr newBal s v now q am ct h = Ok r tr ->
  fst r = EscrowFactory.register f newAddr am.
Proof.
  unfold EscrowFactory.createEscrow, require. intros H; split_requires; try discriminate.
  destruct (Escrow_constructor _ _ _ _ _ _ _ _ _ _) as [e tr0|r0]; try discriminate.
  destruct (receive e _ am) as [e1 tr1|r1]; inversion H; reflexivity.
Qed.

Lemma EscrowFactoryFee_createEscrow_ok accepts f newAddr newBal s v now q am ct h r tr :
  EscrowFactoryFee.createEscrow accepts f newAddr newBal s v now q am ct h = Ok r tr ->
  fst r = EscrowFactoryFee.register f newAddr am.
Proof.
  unfold EscrowFactoryFee.createEscrow, require. intros H; split_requires; try discriminate;
  (destruct (Escrow_constructor _ _ _ _ _ _ _ _ _ _) as [e tr0|r0]; try discriminate;
   destruct (receive e _ _) as [e1 tr1|r1]; inversion H; reflexivity).
Qed.

Lemma In_snoc {A} (a x : A) l : In a (l ++ [x]) <-> In a l \/ x = a.
Proof. rewrite in_app_iff. simpl. intuition. Qed.

Lemma EscrowFactory_register_inv f a am :
  Z.of_nat (List.length f.(EscrowFactory.deployedEscrows)) = f.(EscrowFactory.totalAgreements) /\
  (forall x, f.(EscrowFactory.isEscrowContract) x = true <-> In x f.(EscrowFactory.deployedEscrows)) ->
  let f' := EscrowFactory.register f a am in
  Z.of_nat (List.length f'.(EscrowFactory.deployedEscrows)) = f'.(EscrowFactory.totalAgreements) /\
  (forall x, f'.(EscrowFactory.isEscrowContract) x = true <-> In x f'.(EscrowFactory.deployedEscrows)).
Proof.
  intros [Hl Hi]. simpl. split.
  - rewrite length_app. simpl. lia.
  - intros x. rewrite In_snoc, <- Hi. destruct (Z.eqb_spec x a); subst; intuition congruence.
Qed.

Lemma EscrowFactoryFee_register_inv f a am :
  Z.of_nat (List.length f.(EscrowFactoryFee.deployedEscrows)) = f.(EscrowFactoryFee.totalAgreements) /\
  (forall x, f.(EscrowFactoryFee.isEscrowContract) x = true <-> In x f.(EscrowFactoryFee.deployedEscrows)) ->
  let f' := EscrowFactoryFee.register f a am in
  Z.of_nat (List.length f'.(EscrowFactoryFee.deployedEscrows)) = f'.(EscrowFactoryFee.totalAgreements) /\
  (forall x, f'.(EscrowFactoryFee.isEscrowContract) x = true <-> In x f'.(EscrowFactoryFee.deployedEscrows)).
Proof.
  intros [Hl Hi]. simpl. split.
  - rewrite length_app. simpl. lia.
  - intros x. rewrite In_snoc, <- Hi. destruct (Z.eqb_spec x a); subst; intuition congruence.
Qed.

(** The calls of the creation-fee factory other than [createEscrow] keep
    its registry and counters. *)
Lemma EscrowFactoryFee_step_registry accepts f c f' tr :
  EscrowFactoryFee.step accepts f c = Ok f' tr ->
  (exists a am, f' = EscrowFactoryFee.register f a am) \/
  (f'.(EscrowFactoryFee.deployedEscrows) = f.(EscrowFactoryFee.deployedEscrows) /\
   f'.(EscrowFactoryFee.totalAgreements) = f.(EscrowFactoryFee.totalAgreements) /\
   f'.(EscrowFactoryFee.totalVolume) = f.(EscrowFactoryFee.totalVolume) /\
   f'.(EscrowFactoryFee.isEscrowContract) = f.(EscrowFactoryFee.isEscrowContract)).
Proof.
  destruct c as [c|s fee|s o|s]; simpl.
  - destruct (EscrowFactoryFee.createEscrow _ _ _ _ _ _ _ _ _ _ _) as [[f1 x] tr1|r] eqn:H;
      intros Hk; inversion Hk; subst.
    apply EscrowFactoryFee_createEscrow_ok in H. simpl in H. left. eauto.
  - unfold EscrowFactoryFee.updateX402payCreationFee, require.
    intros Hk; split_requires; inversion Hk; subst; right; simpl; auto.
  - unfold EscrowFactoryFee.transferOwnership, require.
    intros Hk; split_requires; inversion Hk; subst; right; simpl; auto.
  - unfold EscrowFactoryFee.renounceOwnership, require.
    intros Hk; split_requires; inversion Hk; subst; right; simpl; auto.
Qed.

(** X4. Registry consistency of both factories: starting from a factory
    built by its constructor, after any sequence of transactions the
    number of deployed escrows equals [totalAgreements]
    ([getDeployedEscrowsCount() == getAgreementCount()]), and
    [isEscrowContract] holds exactly for the listed addresses. *)
Theorem factories_registry_consistent :
  (forall this fa fee ag f tr cs,
     EscrowFactory.constructor this fa fee ag = Ok f tr ->
     let f' := EscrowFactory.run f cs in
     EscrowFactory.getDeployedEscrowsCount f' = EscrowFactory.getAgreementCount f' /\
     (forall a, f'.(EscrowFactory.isEscrowContract) a = true <-> In a (EscrowFactory.getDeployedEscrows f'))) /\
  (forall accepts this s fa fee ag cfee f tr cs,
     EscrowFactoryFee.constructor this s fa fee ag cfee = Ok f tr ->
     let f' := EscrowFactoryFee.run accepts f cs in
     EscrowFactoryFee.getDeployedEscrowsCount f' = EscrowFactoryFee.getAgreementCount f' /\
     (forall a, f'.(EscrowFactoryFee.isEscrowContract) a = true <-> In a (EscrowFactoryFee.getDeployedEscrows f'))).
Proof.
  split.
  - intros this fa fee ag f tr cs Hc.
    assert (Hinv : Z.of_nat (List.length f.(EscrowFactory.deployedEscrows)) = f.(EscrowFactory.totalAgreements) /\
              (forall x, f.(EscrowFactory.isEscrowContract) x = true <-> In x f.(EscrowFactory.deployedEscrows))).
    { unfold EscrowFactory.constructor, require in Hc. split_requires; try discriminate.
      inversion Hc; subst. simpl. split; [reflexivity | intros x; split; [discriminate | intros []]]. }
    clear Hc. revert f Hinv. unfold EscrowFactory.getDeployedEscrowsCount, EscrowFactory.getAgreementCount,
      EscrowFactory.getDeployedEscrows.
    induction cs as [|c cs IH]; intros f Hinv; simpl; [exact Hinv|].
    destruct (EscrowFactory.createEscrow _ _ _ _ _ _ _ _ _ _) as [[f1 x] tr1|r] eqn:H; apply IH; [|exact Hinv].
    apply EscrowFactory_createEscrow_ok in H. simpl in H. subst f1.
    apply EscrowFactory_register_inv. exact Hinv.
  - intros accepts this s fa fee ag cfee f tr cs Hc.
    assert (Hinv : Z.of_nat (List.length f.(EscrowFactoryFee.deployedEscrows)) = f.(EscrowFactoryFee.totalAgreements) /\
              (forall x, f.(EscrowFactoryFee.isEscrowContract) x = true <-> In x f.(EscrowFactoryFee.deployedEscrows))).
    { unfold EscrowFactoryFee.constructor, require in Hc. split_requires; try discriminate.
      inversion Hc; subst. simpl. split; [reflexivity | intros x; split; [discriminate | intros []]]. }
    clear Hc. revert f Hinv. unfold EscrowFactoryFee.getDeployedEscrowsCount, EscrowFactoryFee.getAgreementCount,
      EscrowFactoryFee.getDeployedEscrows.
    induction cs as [|c cs IH]; intros f Hinv; simpl; [exact Hinv|].
    destruct (EscrowFactoryFee.step accepts f c) as [f1 tr1|r] eqn:H; apply IH; [|exact Hinv].
    apply EscrowFactoryFee_step_registry in H as [(a & am & ->) | (H1 & H2 & H3 & H4)].
    + apply EscrowFactoryFee_register_inv. exact Hinv.
    + rewrite H1, H2, H4. exact Hinv.
Qed.

(** X5. Consequence of the funding defect of [createEscrow] for the whole
    system: a factory built by its constructor never registers an escrow,
    whatever transactions other accounts send it. Its [getDeployedEscrows()]
    stays empty and its counters stay 0 (for the creation-fee factory, the
    owner's administrative calls change none of this), and a monitoring
    cycle of the agent reading that list does nothing at all. *)
Theorem factories_never_register :
  (forall this fa fee ag f tr cs,
     EscrowFactory.constructor this fa fee ag = Ok f tr ->
     Forall (fun c => c.(EscrowFactory.cSender) <> this) cs ->
     let f' := EscrowFactory.run f cs in
     EscrowFactory.getDeployedEscrows f' = [] /\ EscrowFactory.getAgreementCount f' = 0 /\
     EscrowFactory.getTotalVolume f' = 0 /\
     forall getEscrowDetails checkCondition blockchainSettleEscrow,
       AgentService.monitorAgreements (Done (EscrowFactory.getDeployedEscrows f'))
         getEscrowDetails checkCondition blockchainSettleEscrow [] = (Done tt, [])) /\
  (forall accepts this s fa fee ag cfee f tr cs,
     EscrowFactoryFee.constructor this s fa fee ag cfee = Ok f tr ->
     Forall (fun c => EscrowFactoryFee.call_sender c <> this) cs ->
     let f' := EscrowFactoryFee.run accepts f cs in
     EscrowFactoryFee.getDeployedEscrows f' = [] /\ EscrowFactoryFee.getAgreementCount f' = 0 /\
     f'.(EscrowFactoryFee.totalVolume) = 0).
Proof.
  split.
  - intros this fa fee ag f tr cs Hc Hs.
    assert (Hf : EscrowFactory.self f = this /\ EscrowFactory.deployedEscrows f = [] /\
                 EscrowFactory.totalAgreements f = 0 /\ EscrowFactory.totalVolume f = 0).
    { unfold EscrowFactory.constructor, require in Hc. split_requires; try discriminate.
      inversion Hc; subst. simpl. auto. }
    assert (Hr : EscrowFactory.run f cs = f).
    { clear Hc. destruct Hf as [Hself _]. induction Hs as [|c cs Hc Hs IH]; simpl; [reflexivity|].
      destruct (EscrowFactory.createEscrow _ _ _ _ _ _ _ _ _ _) as [[f1 x] tr1|r] eqn:H; [|exact IH].
      exfalso. unfold EscrowFactory.createEscrow, require in H. split_requires; try discriminate.
      destruct (Escrow_constructor _ _ _ _ _ _ _ _ _ _) as [e tr0|r0] eqn:Hctor; try discriminate.
      apply Escrow_constructor_fields in Hctor as [-> _].
      unfold receive, require in H. simpl in H.
      destruct (Z.eqb_spec (EscrowFactory.self f) (EscrowFactory.cSender c)); [congruence | discriminate]. }
    simpl. rewrite Hr. unfold EscrowFactory.getDeployedEscrows, EscrowFactory.getAgreementCount,
      EscrowFactory.getTotalVolume.
    destruct Hf as (_ & -> & -> & ->). repeat split.
  - intros accepts this s fa fee ag cfee f tr cs Hc Hs.
    assert (Hf : EscrowFactoryFee.self f = this /\ EscrowFactoryFee.deployedEscrows f = [] /\
                 EscrowFactoryFee.totalAgreements f = 0 /\ EscrowFactoryFee.totalVolume f = 0).
    { unfold EscrowFactoryFee.constructor, require in Hc. split_requires; try discriminate.
      inversion Hc; subst. simpl. auto. }
    clear Hc. simpl. unfold EscrowFactoryFee.getDeployedEscrows, EscrowFactoryFee.getAgreementCount.
    revert f Hf. induction Hs as [|c cs Hc Hs IH]; intros f Hf; simpl; [tauto|].
    destruct (EscrowFactoryFee.step accepts f c) as [f1 tr1|r] eqn:H; apply IH; [|exact Hf].
    destruct c as [c|s' nf|s' o|s']; simpl in H, Hc.
    + destruct (EscrowFactoryFee.createEscrow _ _ _ _ _ _ _ _ _ _ _) as [[f2 x] tr2|r] eqn:Hk;
        inversion H; subst.
      exfalso. pose proof (EscrowFactoryFee_createEscrow_always_reverts accepts f
        (EscrowFactory.cNewAddr c) (EscrowFactory.cNewBal c) (EscrowFactory.cSender c)
        (EscrowFactory.cValue c) (EscrowFactory.cNow c) (EscrowFactory.cPayee c)
        (EscrowFactory.cAmount c) (EscrowFactory.cConditionType c) (EscrowFactory.cConditionHash c)) as Hr.
      rewrite Hk in Hr. simpl in Hr. destruct Hf as [Hself _]. rewrite Hself in Hr.
      specialize (Hr Hc). discriminate.
    + unfold EscrowFactoryFee.updateX402payCreationFee, require in H.
      split_requires; inversion H; subst; simpl; exact Hf.
    + unfold EscrowFactoryFee.transferOwnership, require in H.
      split_requires; inversion H; subst; simpl; exact Hf.
    + unfold EscrowFactoryFee.renounceOwnership, require in H.
      split_requires; inversion H; subst; simpl; exact Hf.
Qed.

Lemma EscrowFactoryFee_step_admin accepts f c f' tr :
  EscrowFactoryFee.step accepts f c = Ok f' tr ->
  f'.(EscrowFactoryFee.self) = f.(EscrowFactoryFee.self) /\
  f'.(EscrowFactoryFee.x402payFeeAddress) = f.(EscrowFactoryFee.x402payFeeAddress) /\
  f'.(EscrowFactoryFee.x402payFeeAmount) = f.(EscrowFactoryFee.x402payFeeAmount) /\
  f'.(EscrowFactoryFee.authorizedAgent) = f.(EscrowFactoryFee.authorizedAgent) /\
  (EscrowFactoryFee.call_sender c <> f.(EscrowFactoryFee.owner) ->
     f'.(EscrowFactoryFee.owner) = f.(EscrowFactoryFee.owner) /\
     f'.(EscrowFactoryFee.x402payCreationFee) = f.(EscrowFactoryFee.x402payCreationFee)) /\
  (0 <= f.(EscrowFactoryFee.x402payCreationFee) -> 0 <= f'.(EscrowFactoryFee.x402payCreationFee)).
Proof.
  destruct c as [c|s fee|s o|s]; simpl.
  - destruct (EscrowFactoryFee.createEscrow _ _ _ _ _ _ _ _ _ _ _) as [[f1 x] tr1|r] eqn:H;
      intros Hk; inversion Hk; subst.
    apply EscrowFactoryFee_createEscrow_ok in H. simpl in H. subst. simpl. auto 10.
  - unfold EscrowFactoryFee.updateX402payCreationFee, require.
    intros Hk; split_requires; inversion Hk; subst; simpl; zbool;
      repeat split; intros; try lia; congruence.
  - unfold EscrowFactoryFee.transferOwnership, require.
    intros Hk; split_requires; inversion Hk; subst; simpl; zbool;
      repeat split; intros; try lia; congruence.
  - unfold EscrowFactoryFee.renounceOwnership, require.
    intros Hk; split_requires; inversion Hk; subst; simpl; zbool;
      repeat split; intros; try lia; congruence.
Qed.

(** X6. Administration of the creation-fee factory: no transaction ever
    changes its own address, fee address, settlement fee or authorized
    agent; a sequence of transactions none of which is sent by the owner
    changes neither the owner nor the creation fee; and the creation fee
    stays non-negative. *)
Theorem EscrowFactoryFee_admin_only_owner accepts cs : forall f,
  let f' := EscrowFactoryFee.run accepts f cs in
  f'.(EscrowFactoryFee.self) = f.(EscrowFactoryFee.self) /\
  f'.(EscrowFactoryFee.x402payFeeAddress) = f.(EscrowFactoryFee.x402payFeeAddress) /\
  f'.(EscrowFactoryFee.x402payFeeAmount) = f.(EscrowFactoryFee.x402payFeeAmount) /\
  f'.(EscrowFactoryFee.authorizedAgent) = f.(EscrowFactoryFee.authorizedAgent) /\
  (Forall (fun c => EscrowFactoryFee.call_sender c <> f.(EscrowFactoryFee.owner)) cs ->
     f'.(EscrowFactoryFee.owner) = f.(EscrowFactoryFee.owner) /\
     EscrowFactoryFee.getX402payCreationFee f' = EscrowFactoryFee.getX402payCreationFee f) /\
  (0 <= f.(EscrowFactoryFee.x402payCreationFee) ->
     0 <= EscrowFactoryFee.getX402payCreationFee f').
Proof.
  unfold EscrowFactoryFee.getX402payCreationFee.
  induction cs as [|c cs IH]; intros f; simpl; [auto 10|].
  destruct (EscrowFactoryFee.step accepts f c) as [f1 tr1|r] eqn:H.
  - apply EscrowFactoryFee_step_admin in H as (H1 & H2 & H3 & H4 & H5 & H6).
    destruct (IH f1) as (I1 & I2 & I3 & I4 & I5 & I6).
    refine (conj _ (conj _ (conj _ (conj _ (conj _ _))))); try congruence.
    + intros Hall. inversion Hall as [|c' cs' Hc Hrest]; subst.
      destruct (H5 Hc) as [Ho Hf]. rewrite <- Ho in Hrest.
      destruct (I5 Hrest) as [Io If]. split; congruence.
    + intros Hn. apply I6, H6, Hn.
  - destruct (IH f) as (I1 & I2 & I3 & I4 & I5 & I6).
    refine (conj _ (conj _ (conj _ (conj _ (conj _ _))))); try congruence.
    + intros Hall. inversion Hall; subst. auto.
    + exact I6.
Qed.

(** ** Condition evaluation over time *)

Lemma timer_mono d D now now' :
  0 <= D -> now <= now' ->
  (now >? ConditionService.createdAt_or_now (Some d) now + D) = true ->
  (now' >? ConditionService.createdAt_or_now (Some d) now' + D) = true.
Proof.
  intros HD Hle H. apply (created_timer now D d HD) in H as (c & Hc & Hnz & Hgt).
  apply (created_timer now' D d HD). exists c. repeat split; auto; lia.
Qed.

Lemma timer_mono_task d D now now' :
  now <= now' ->
  (if ConditionService.truthyZ d.(ConditionService.createdAt) then
     match d.(ConditionService.createdAt) with Some c => now >? c + D | None => false end
   else false) = true ->
  (if ConditionService.truthyZ d.(ConditionService.createdAt) then
     match d.(ConditionService.createdAt) with Some c => now' >? c + D | None => false end
   else false) = true.
Proof.
  intros Hle H. apply created_timer_task in H as (c & Hc & Hnz & Hgt).
  apply created_timer_task. exists c. repeat split; auto; lia.
Qed.

(** X7. A condition, once met, stays met: for a fixed condition type,
    hash and agreement record, if [checkCondition] returns [true] at time
    [now], it returns [true] at every later time. *)
Theorem checkCondition_monotone ct h ad now now' :
  now <= now' ->
  ConditionService.checkCondition ct h ad now = true ->
  ConditionService.checkCondition ct h ad now' = true.
Proof.
  intros Hle H.
  unfold ConditionService.checkCondition, ConditionService.checkDateCondition,
    ConditionService.checkTaskCondition, ConditionService.checkGithubPRCondition,
    ConditionService.checkApiCondition, ConditionService.checkCustomEventCondition in *.
  destruct ad as [d|].
  - destruct (ct =? 0).
    { destruct (ConditionService.conditionMet d); [reflexivity|].
      eapply timer_mono; [| exact Hle | exact H]; lia. }
    destruct (ct =? 1).
    { destruct (ConditionService.taskCompleted d); [reflexivity|].
      eapply timer_mono_task; [exact Hle | exact H]. }
    destruct (ct =? 2).
    { destruct (ConditionService.prMerged d); [reflexivity|].
      destruct (ConditionService.truthyS (ConditionService.githubPrUrl d)); [|discriminate].
      eapply timer_mono; [| exact Hle | exact H]; lia. }
    destruct (ct =? 3).
    { destruct (ConditionService.apiConditionMet d); [reflexivity|].
      destruct (ConditionService.truthyS (ConditionService.apiEndpoint d)); [|discriminate].
      eapply timer_mono; [| exact Hle | exact H]; lia. }
    destruct (ct =? 4).
    { destruct (ConditionService.customEventTriggered d); [reflexivity|].
      destruct (ConditionService.truthyS (ConditionService.customEventName d)); [|discriminate].
      eapply timer_mono; [| exact Hle | exact H]; lia. }
    exact H.
  - simpl in *.
    destruct (ct =? 0); [zbool; lia|].
    destruct (ct =? 1); [discriminate|].
    destruct (ct =? 2); [discriminate|].
    destruct (ct =? 3); [discriminate|].
    destruct (ct =? 4); discriminate.
Qed.

(** Witness for X7: the sample Task record, met three minutes and one
    millisecond after creation, is still met an hour later. *)
Lemma checkCondition_monotone_witness :
  let d := ConditionService.mkAgreementData (Some (t0 * 1000)) false false false false false
             None None None in
  t0 * 1000 + 180001 <= t0 * 1000 + 3600000 /\
  ConditionService.checkCondition 1 42 (Some d) (t0 * 1000 + 180001) = true /\
  ConditionService.checkCondition 1 42 (Some d) (t0 * 1000 + 3600000) = true.
Proof.
  intros d.
  assert (Hle : t0 * 1000 + 180001 <= t0 * 1000 + 3600000) by (unfold t0; lia).
  assert (Hm : ConditionService.checkCondition 1 42 (Some d) (t0 * 1000 + 180001) = true)
    by (vm_compute; reflexivity).
  split; [exact Hle | split; [exact Hm |]].
  exact (checkCondition_monotone 1 42 (Some d) _ _ Hle Hm).
Defined.

(** ** Reading an escrow from the chain *)

(** [zbool] extended to the [||] and [&&] of the validators' tests. *)
Ltac zbool_conn :=
  repeat match goal with
  | H : (_ || _) = true |- _ => apply orb_true_iff in H; destruct H as [H|H]
  | H : (_ || _) = false |- _ => apply orb_false_iff in H; destruct H
  | H : (_ && _) = true |- _ => apply andb_true_iff in H; destruct H
  | H : (_ && _) = false |- _ => apply andb_false_iff in H; destruct H as [H|H]
  end; zbool.

Module ValidationDone.
Import ValidationService.

Lemma validateAmount_Done amt n v :
  validateAmount amt n = Done v <-> v = amt /\ 10 ^ 15 <= amt <= 1000 * 10 ^ 18.
Proof.
  unfold validateAmount, minAmount, maxAmount.
  split.
  - intros H. split_requires; try discriminate; injection H as <-; zbool; split; [reflexivity | lia].
  - intros [-> Hr]. split_requires; zbool; try lia; reflexivity.
Qed.

Lemma validateConditionType_Done ct n v :
  validateConditionType ct n = Done v <-> v = ct /\ 0 <= ct <= 4.
Proof.
  unfold validateConditionType.
  split.
  - intros H. split_requires; try discriminate; injection H as <-; zbool_conn; split; [reflexivity | lia].
  - intros [-> Hr]. split_requires; zbool_conn; try lia; reflexivity.
Qed.

Lemma validateStatus_Done st n v :
  validateStatus st n = Done v <-> v = st /\ 0 <= st <= 3.
Proof.
  unfold validateStatus.
  split.
  - intros H. split_requires; try discriminate; injection H as <-; zbool_conn; split; [reflexivity | lia].
  - intros [-> Hr]. split_requires; zbool_conn; try lia; reflexivity.
Qed.

Lemma validateTimestamp_Done t nowSec n v :
  validateTimestamp t nowSec n = Done v <->
  v = t /\ t <> 0 /\ nowSec - year_s <= t <= nowSec + year_s.
Proof.
  unfold validateTimestamp, year_s.
  split.
  - intros H. split_requires; try discriminate; injection H as <-; zbool; repeat split; lia.
  - intros (-> & H0 & Hr). split_requires; zbool; try lia; reflexivity.
Qed.

Lemma validateEscrowDetails_Done d nowSec d' :
  validateEscrowDetails d nowSec = Done d' <->
  d' = d /\
  d.(payer) <> d.(payee) /\
  10 ^ 15 <= d.(amount) <= 1000 * 10 ^ 18 /\
  0 <= d.(conditionType) <= 4 /\
  0 <= d.(status) <= 3 /\
  d.(createdAt) <> 0 /\ nowSec - year_s <= d.(createdAt) <= nowSec + year_s /\
  (d.(settledAt) = 0 \/ nowSec - year_s <= d.(settledAt) <= nowSec + year_s) /\
  (d.(status) = 2 -> d.(settledAt) <> 0) /\
  10 ^ 15 <= d.(balance) <= 1000 * 10 ^ 18.
Proof.
  unfold validateEscrowDetails, bindE, validateAddress, validateConditionHash.
  split.
  - intros H. cbn beta iota in H.
    repeat match goal with
    | H : context [match ?x with Done _ => _ | Throw _ => _ end] |- _ =>
        let E := fresh "E" in destruct x eqn:E; cbn beta iota in H; try discriminate
    end.
    apply validateAmount_Done in E as [-> Ham], E4 as [-> Hbal].
    apply validateConditionType_Done in E0 as [-> Hct].
    apply validateStatus_Done in E1 as [-> Hst].
    apply validateTimestamp_Done in E2 as (-> & Hca0 & Hca).
    split_requires; try discriminate; zbool_conn.
    all: match goal with
      | E : Done 0 = Done ?x |- _ => injection E as <-
      | E : validateTimestamp _ _ _ = Done ?x |- _ => apply validateTimestamp_Done in E as (-> & ? & ?)
      end.
    all: injection H as <-.
    all: split; [try match goal with E : settledAt _ = 0 |- _ => rewrite <- E end; match goal with |- _ = ?dd => destruct dd end; reflexivity |].
    all: repeat split; first [ assumption | lia | left; lia | right; lia | intros; lia ].
  - intros (Hd & Hpq & Ham & Hct & Hst & Hca0 & Hca & Hsa & Hset & Hbal). subst d'.
    rewrite (proj2 (validateAmount_Done (amount d) "amount" (amount d)) (conj eq_refl Ham)).
    rewrite (proj2 (validateAmount_Done (balance d) "balance" (balance d)) (conj eq_refl Hbal)).
    rewrite (proj2 (validateConditionType_Done (conditionType d) "conditionType" (conditionType d))
               (conj eq_refl Hct)).
    rewrite (proj2 (validateStatus_Done (status d) "status" (status d)) (conj eq_refl Hst)).
    rewrite (proj2 (validateTimestamp_Done (createdAt d) nowSec "createdAt" (createdAt d))
               (conj eq_refl (conj Hca0 Hca))).
    cbn beta iota.
    destruct (settledAt d =? 0) eqn:Hs0; zbool.
    + cbn beta iota. split_requires; zbool_conn; try lia.
      rewrite <- Hs0; destruct d; reflexivity.
    + destruct Hsa as [Hsa|Hsa]; [lia|].
      rewrite (proj2 (validateTimestamp_Done (settledAt d) nowSec "settledAt" (settledAt d))
               (conj eq_refl (conj Hs0 Hsa))).
      cbn beta iota. split_requires; zbool_conn; try lia.
      all: destruct d; reflexivity.
Qed.
End ValidationDone.

(** X8. [BlockchainService.getEscrowDetails] returns a record exactly when
    an escrow is deployed at the address and its storage passes every
    validator: the record copies the storage (status as its number) and
    the agreement has distinct parties, an amount and a balance in
    [[0.001 ETH, 1000 ETH]], a condition type in [0..4], a non-zero
    creation time within a year of now, a settlement time that is zero or
    within a year of now, and a settlement time if it is Settled. *)
Theorem getEscrowDetails_spec chain nowSec a d :
  ValidationService.getEscrowDetails chain nowSec a = Done d <->
  exists e, chain a = Some e /\
    let g := e.(agreement) in
    d = ValidationService.mkDetails a g.(payer) g.(payee) g.(amount) g.(conditionType)
          g.(conditionDetailsHash) (ValidationService.Status_to_Z g.(status))
          g.(createdAt) g.(settledAt) e.(balance) /\
    g.(payer) <> g.(payee) /\
    10 ^ 15 <= g.(amount) <= 1000 * 10 ^ 18 /\
    0 <= g.(conditionType) <= 4 /\
    g.(createdAt) <> 0 /\ nowSec - year_s <= g.(createdAt) <= nowSec + year_s /\
    (g.(settledAt) = 0 \/ nowSec - year_s <= g.(settledAt) <= nowSec + year_s) /\
    (g.(status) = Settled -> g.(settledAt) <> 0) /\
    10 ^ 15 <= e.(balance) <= 1000 * 10 ^ 18.
Proof.
  unfold ValidationService.getEscrowDetails, ValidationService.bindE,
    ValidationService.validateAddress.
  destruct (chain a) as [[[pr pe am ct h st ca sa] ag fa fee bal]|] eqn:Hc.
  - rewrite ValidationDone.validateEscrowDetails_Done.
    cbn [ValidationService.payer ValidationService.payee ValidationService.amount
         ValidationService.conditionType ValidationService.status ValidationService.createdAt
         ValidationService.settledAt ValidationService.balance].
    split.
    + intros (Hd & Hpq & Ham & Hct & Hst & Hca0 & Hca & Hsa & Hset & Hbal).
      eexists; split; [reflexivity|].
      cbn [agreement payer payee amount conditionType conditionDetailsHash status
           createdAt settledAt balance].
      refine (conj Hd (conj Hpq (conj Ham (conj Hct (conj Hca0 (conj Hca (conj Hsa (conj _ Hbal)))))))).
      intros ->. apply Hset. reflexivity.
    + intros (e & He & Hd & Hpq & Ham & Hct & Hca0 & Hca & Hsa & Hset & Hbal).
      injection He as <-.
      cbn [agreement payer payee amount conditionType conditionDetailsHash status
           createdAt settledAt balance] in *.
      refine (conj Hd (conj Hpq (conj Ham (conj Hct (conj _ (conj Hca0 (conj Hca (conj Hsa (conj _ Hbal))))))))).
      * destruct st; cbn; lia.
      * destruct st; cbn; try discriminate. intros _. apply Hset. reflexivity.
  - split; [discriminate|]. intros (e & He & _). discriminate.
Qed.

(** ** What the monitoring cycle does with one agreement *)

Lemma getEscrowDetails_Done_storage chain nowSec a d :
  ValidationService.getEscrowDetails chain nowSec a = Done d ->
  exists e, chain a = Some e /\
    d = ValidationService.mkDetails a e.(agreement).(payer) e.(agreement).(payee)
          e.(agreement).(amount) e.(agreement).(conditionType)
          e.(agreement).(conditionDetailsHash) (ValidationService.Status_to_Z e.(agreement).(status))
          e.(agreement).(createdAt) e.(agreement).(settledAt) e.(balance) /\
    e.(agreement).(payer) <> e.(agreement).(payee) /\
    10 ^ 15 <= e.(balance) <= 1000 * 10 ^ 18.
Proof.
  unfold ValidationService.getEscrowDetails, ValidationService.bindE,
    ValidationService.validateAddress.
  destruct (chain a) as [[[pr pe am ct h st ca sa] ag fa fee bal]|] eqn:Hc; [|discriminate].
  rewrite ValidationDone.validateEscrowDetails_Done.
  intros (Hd & Hpq & _ & _ & _ & _ & _ & _ & _ & Hbal).
  eexists; split; [reflexivity|]. exact (conj Hd (conj Hpq Hbal)).
Qed.

(** X9. What one agreement's processing can log, with the real chain read:
    nothing, or its evaluation, then a settlement attempt, then a success,
    in that order. Any event at all needs an escrow deployed at the address
    whose stored status is Escrowed, with distinct parties and a balance in
    [[0.001 ETH, 1000 ETH]]; the attempt needs the condition to evaluate to
    [true] on the record read, and the success needs the chain call to
    report success. *)
Theorem processEscrowContract_log chain nowSec checkCondition blockchainSettleEscrow a :
  let log := snd (AgentService.processEscrowContract (ValidationService.getEscrowDetails chain nowSec)
                    checkCondition blockchainSettleEscrow a []) in
  log = [] \/
  exists e, chain a = Some e /\ e.(agreement).(status) = Escrowed /\
    e.(agreement).(payer) <> e.(agreement).(payee) /\
    10 ^ 15 <= e.(balance) <= 1000 * 10 ^ 18 /\
    let d := ValidationService.mkDetails a e.(agreement).(payer) e.(agreement).(payee)
               e.(agreement).(amount) e.(agreement).(conditionType)
               e.(agreement).(conditionDetailsHash) 1
               e.(agreement).(createdAt) e.(agreement).(settledAt) e.(balance) in
    (log = [AgentService.Evaluated a] /\ checkCondition d <> Done true) \/
    (log = [AgentService.Evaluated a; AgentService.SettleAttempted a] /\
     checkCondition d = Done true /\ blockchainSettleEscrow a <> Done true) \/
    (log = [AgentService.Evaluated a; AgentService.SettleAttempted a; AgentService.SettleSucceeded a] /\
     checkCondition d = Done true /\ blockchainSettleEscrow a = Done true).
Proof.
  intros log. subst log.
  unfold AgentService.processEscrowContract, AgentService.settleEscrow, AgentService.try_catch,
    AgentService.bind, AgentService.lift, AgentService.emit, AgentService.ret.
  destruct (ValidationService.getEscrowDetails chain nowSec a) as [d|m] eqn:Hg; [|left; reflexivity].
  apply getEscrowDetails_Done_storage in Hg as (e & He & Hd & Hpq & Hbal).
  destruct ((ValidationService.status d =? 2) || (ValidationService.status d =? 3)) eqn:Hs;
    [left; reflexivity|].
  destruct (negb (ValidationService.status d =? 1)) eqn:Hs1; [left; reflexivity|].
  right. exists e. apply negb_false_iff, Z.eqb_eq in Hs1.
  assert (Hst : e.(agreement).(status) = Escrowed).
  { rewrite Hd in Hs1. cbn in Hs1. destruct (status (agreement e)); cbn in Hs1; congruence. }
  refine (conj He (conj Hst (conj Hpq (conj Hbal _)))).
  rewrite Hst in Hd. cbn in Hd. rewrite <- Hd.
  cbn [app].
  destruct (checkCondition d) as [[]|m] eqn:Hc.
  - destruct (blockchainSettleEscrow a) as [[]|m] eqn:Hb; cbn.
    + right; right. repeat split.
    + right; left. repeat split; discriminate.
    + right; left. repeat split; discriminate.
  - left. split; [reflexivity | discriminate].
  - left. split; [reflexivity | discriminate].
Qed.

(** ** String validation *)

Module StringFacts.

Import ValidationStrings.

(** A list that does not start with a character [trim] removes. *)
Definition starts_ok (l : list ascii) : Prop :=
  match l with c :: _ => is_js_space c = false | [] => True end.

Lemma drop_spaces_starts l : starts_ok (drop_spaces l).
Proof.
  induction l as [|c l IH]; simpl; [exact I|].
  destruct (is_js_space c) eqn:Hc; [exact IH | exact Hc].
Qed.

Lemma drop_spaces_fix l : starts_ok l -> drop_spaces l = l.
Proof. destruct l as [|c l]; simpl; [reflexivity|]. intros ->. reflexivity. Qed.

Lemma drop_spaces_suffix l : exists p, l = (p ++ drop_spaces l)%list.
Proof.
  induction l as [|c l [p Hp]]; simpl.
  - exists []. reflexivity.
  - destruct (is_js_space c).
    + exists (c :: p). simpl. rewrite <- Hp. reflexivity.
    + exists []. reflexivity.
Qed.

Lemma drop_spaces_incl l x : In x (drop_spaces l) -> In x l.
Proof.
  destruct (drop_spaces_suffix l) as [p Hp]. intros H.
  rewrite Hp. apply in_or_app. right. exact H.
Qed.

Lemma starts_ok_rev_drop m : starts_ok m -> starts_ok (rev (drop_spaces (rev m))).
Proof.
  intros Hm.
  destruct (drop_spaces_suffix (rev m)) as [p Hp].
  destruct (drop_spaces (rev m)) as [|y r'] eqn:Hr; [exact I|].
  destruct (exists_last (l := y :: r') ltac:(discriminate)) as [r0 [x Hx]].
  rewrite Hx in Hp |- *. rewrite rev_app_distr. simpl.
  assert (Hm' : m = x :: rev (p ++ r0)).
  { rewrite <- (rev_involutive m), Hp, app_assoc, rev_app_distr. reflexivity. }
  rewrite Hm' in Hm. exact Hm.
Qed.

Lemma trim_list_idem l : trim_list (trim_list l) = trim_list l.
Proof.
  unfold trim_list.
  set (r := drop_spaces (rev (drop_spaces l))).
  assert (H1 : starts_ok (rev r)) by apply starts_ok_rev_drop, drop_spaces_starts.
  rewrite (drop_spaces_fix _ H1), rev_involutive.
  rewrite (drop_spaces_fix r (drop_spaces_starts _)). reflexivity.
Qed.

Lemma trim_list_incl l x : In x (trim_list l) -> In x l.
Proof.
  unfold trim_list. intros H.
  apply in_rev, drop_spaces_incl, in_rev, drop_spaces_incl in H. exact H.
Qed.

Lemma filter_all {A} (f : A -> bool) l : (forall x, In x l -> f x = true) -> filter f l = l.
Proof.
  induction l as [|a l IH]; simpl; intros H; [reflexivity|].
  rewrite (H a (or_introl eq_refl)), IH; [reflexivity|]. intros x Hx. apply H. right. exact Hx.
Qed.

Lemma trim_idem s : trim (trim s) = trim s.
Proof.
  unfold trim. rewrite list_ascii_of_string_of_list_ascii, trim_list_idem. reflexivity.
Qed.

Lemma keep_not_in cls x :
  negb (existsb (fun c => Ascii.eqb x c) cls) = true -> ~ In x cls.
Proof.
  intros H Hin. apply negb_true_iff in H.
  assert (existsb (fun c => Ascii.eqb x c) cls = true).
  { apply existsb_exists. exists x. split; [exact Hin | apply Ascii.eqb_refl]. }
  congruence.
Qed.

Lemma includes_char_false s c :
  (forall x, In x (list_ascii_of_string s) -> x <> c) -> includes_char s c = false.
Proof.
  unfold includes_char. intros H.
  destruct (existsb (fun d => Ascii.eqb d c) (list_ascii_of_string s)) eqn:He; [|reflexivity].
  apply existsb_exists in He as [x [Hx Heq]]. apply Ascii.eqb_eq in Heq.
  exfalso. exact (H x Hx Heq).
Qed.

Lemma sanitizeInput_list s :
  list_ascii_of_string (sanitizeInput s) =
  trim_list (filter (fun d => negb (existsb (fun c => Ascii.eqb d c) ["'"%char; quote]))
               (filter (fun d => negb (existsb (fun c => Ascii.eqb d c) ["<"%char; ">"%char]))
                  (list_ascii_of_string s))).
Proof.
  unfold sanitizeInput, trim, remove_chars.
  rewrite !list_ascii_of_string_of_list_ascii. reflexivity.
Qed.

End StringFacts.

(** X10. [sanitizeInput] is idempotent, and its result contains none of the
    characters it strips: [<], [>], the single quote and the double
    quote. *)
Theorem sanitizeInput_idempotent_safe s :
  ValidationStrings.sanitizeInput (ValidationStrings.sanitizeInput s) = ValidationStrings.sanitizeInput s /\
  Forall (fun c => ValidationStrings.includes_char (ValidationStrings.sanitizeInput s) c = false)
    ["<"%char; ">"%char; "'"%char; ValidationStrings.quote].
Proof.
  set (f1 := fun d => negb (existsb (fun c => Ascii.eqb d c) ["<"%char; ">"%char])).
  set (f2 := fun d => negb (existsb (fun c => Ascii.eqb d c) ["'"%char; ValidationStrings.quote])).
  assert (Hin : forall x, In x (list_ascii_of_string (ValidationStrings.sanitizeInput s)) ->
                  f1 x = true /\ f2 x = true).
  { intros x Hx. rewrite StringFacts.sanitizeInput_list in Hx.
    apply StringFacts.trim_list_incl, filter_In in Hx as [Hx H2].
    apply filter_In in Hx as [_ H1]. split; assumption. }
  split.
  - assert (Heq : forall t, ValidationStrings.sanitizeInput t =
                  string_of_list_ascii (ValidationStrings.trim_list
                    (filter f2 (filter f1 (list_ascii_of_string t))))).
    { intros t. unfold f1, f2. rewrite <- (StringFacts.sanitizeInput_list t), string_of_list_ascii_of_string.
      reflexivity. }
    rewrite (Heq (ValidationStrings.sanitizeInput s)).
    rewrite (StringFacts.filter_all f1); [| intros x Hx; apply Hin, Hx].
    rewrite (StringFacts.filter_all f2); [| intros x Hx; apply Hin, Hx].
    rewrite StringFacts.sanitizeInput_list. fold f1 f2.
    rewrite StringFacts.trim_list_idem, <- StringFacts.sanitizeInput_list.
    apply string_of_list_ascii_of_string.
  - repeat constructor; apply StringFacts.includes_char_false; intros x Hx Heq; subst x;
      destruct (Hin _ Hx) as [H1 H2];
      first [ solve [apply (StringFacts.keep_not_in _ _ H1); simpl; auto]
            | solve [apply (StringFacts.keep_not_in _ _ H2); simpl; auto] ].
Qed.

(** X11. Round trip of [validateString] with a positive [minLength] (every
    caller passes 1 or 3): the string it returns is the trimmed input,
    its length is within the bounds, it contains neither [<] nor [>], and
    validating it again with the same arguments returns it unchanged. *)
Theorem validateString_roundtrip value fieldName minLength maxLength t :
  (1 <= minLength)%nat ->
  ValidationStrings.validateString value fieldName minLength maxLength = Done t ->
  t = ValidationStrings.trim value /\
  (minLength <= String.length t <= maxLength)%nat /\
  ValidationStrings.includes_char t "<" = false /\ ValidationStrings.includes_char t ">" = false /\
  ValidationStrings.validateString t fieldName minLength maxLength = Done t.
Proof.
  intros Hmin H. unfold ValidationStrings.validateString in *.
  destruct (String.eqb value "") eqn:He; [discriminate|].
  destruct (String.length (ValidationStrings.trim value) <? minLength)%nat eqn:H1; [discriminate|].
  destruct (maxLength <? String.length (ValidationStrings.trim value))%nat eqn:H2; [discriminate|].
  destruct (ValidationStrings.includes_char (ValidationStrings.trim value) "<"
            || ValidationStrings.includes_char (ValidationStrings.trim value) ">") eqn:H3;
    [discriminate|].
  injection H as <-.
  apply Nat.ltb_ge in H1, H2. apply orb_false_iff in H3 as [H3 H4].
  refine (conj eq_refl (conj (conj H1 H2) (conj H3 (conj H4 _)))).
  rewrite StringFacts.trim_idem.
  destruct (String.eqb (ValidationStrings.trim value) "") eqn:He'.
  - apply String.eqb_eq in He'. rewrite He' in H1. simpl in H1. lia.
  - rewrite (proj2 (Nat.ltb_ge _ _) H1), (proj2 (Nat.ltb_ge _ _) H2), H3, H4. reflexivity.
Qed.

(** Witness for X11: a padded task name. *)
Lemma validateString_roundtrip_witness :
  (1 <= 3)%nat /\
  ValidationStrings.validateString "  Fix bug  " "taskName" 3 200 = Done "Fix bug" /\
  ValidationStrings.validateString "Fix bug" "taskName" 3 200 = Done "Fix bug".
Proof.
  assert (Hm : (1 <= 3)%nat) by lia.
  assert (Hv : ValidationStrings.validateString "  Fix bug  " "taskName" 3 200 = Done "Fix bug")
    by (vm_compute; reflexivity).
  split; [exact Hm | split; [exact Hv |]].
  exact (proj2 (proj2 (proj2 (proj2 (validateString_roundtrip _ _ _ _ _ Hm Hv))))).
Defined.

(** ** The agent's settlement transaction *)

(** X12. What the agent's [settleEscrow] requires before it changes the
    ledger or reports success: either it leaves the ledger unchanged and
    does not report success, or the escrow was stored with status
    Escrowed, the agent is its authorized agent, the wallet held at least
    0.001 ETH, the gas limit was in [(0, 10 000 000]] and the wallet
    covered the gas limit times the gas price capped at 100 gwei; even
    then success is reported only if the receipt arrived in time. *)
Theorem settleEscrow_effect accepts bufferedGas formatEther chain nowSec blockTime agentAddr
    agentBal gasEstimate gasPrice confirmed a :
  let '(r, chain') := BlockchainService.settleEscrow accepts bufferedGas formatEther chain nowSec
                        blockTime agentAddr agentBal gasEstimate gasPrice confirmed a in
  (chain' = chain /\ r <> Done true) \/
  (exists e,
     chain a = Some e /\ e.(agreement).(status) = Escrowed /\
     agentAddr = e.(authorizedAgent) /\
     BlockchainService.minAgentBalance <= agentBal /\
     0 < bufferedGas gasEstimate <= 10000000 /\
     bufferedGas gasEstimate * Z.min gasPrice BlockchainService.maxGasPrice <= agentBal /\
     (r = Done true -> confirmed = true)).
Proof.
  unfold BlockchainService.settleEscrow, ValidationService.validateAddress.
  destruct (ValidationService.getEscrowDetails chain nowSec a) as [d|m] eqn:Hg;
    [|left; split; [reflexivity | discriminate]].
  apply getEscrowDetails_Done_storage in Hg as (e0 & He0 & Hd & _ & _).
  destruct (negb (ValidationService.status d =? 1)) eqn:Hs;
    [left; split; [reflexivity | discriminate]|].
  rewrite He0.
  destruct (settle accepts e0 agentAddr blockTime) as [e' tr|rr] eqn:Hset;
    [|left; split; [reflexivity | discriminate]].
  destruct (agentBal <? BlockchainService.minAgentBalance) eqn:Hb;
    [left; split; [reflexivity | discriminate]|].
  unfold BlockchainService.validateGasParams, ValidationService.bindE.
  destruct (bufferedGas gasEstimate <=? 0) eqn:Hg1;
    [left; split; [reflexivity | discriminate]|].
  destruct (bufferedGas gasEstimate >? 10000000) eqn:Hg2;
    [left; split; [reflexivity | discriminate]|].
  destruct (agentBal <? bufferedGas gasEstimate *
              (if gasPrice >? BlockchainService.maxGasPrice then BlockchainService.maxGasPrice
               else gasPrice)) eqn:Hc;
    [left; split; [reflexivity | discriminate]|].
  zbool.
  destruct (settle_ok_inv _ _ _ _ _ _ Hset) as (Hag & _).
  assert (Hst : e0.(agreement).(status) = Escrowed).
  { rewrite Hd in Hs. cbn in Hs. destruct (status (agreement e0)); cbn in Hs; congruence. }
  destruct confirmed; right; exists e0.
  all: refine (conj eq_refl (conj Hst (conj Hag (conj Hb (conj (conj _ _) (conj _ _)))))).
  all: try lia.
  all: try (intros _; reflexivity).
  all: try (intros Hr; discriminate Hr).
  all: destruct (gasPrice >? BlockchainService.maxGasPrice) eqn:Hm; zbool.
  all: first [ rewrite Z.min_r by lia; lia | rewrite Z.min_l by lia; lia ].
Qed.

(** X13. The agent never sends a settlement for an escrow whose stored
    status is not Escrowed: either reading it fails and that error is
    thrown, or it throws "Cannot settle escrow. Current status: undefined"
    (the validated details have no [statusText]); the ledger is left
    unchanged. *)
Theorem settleEscrow_requires_escrowed accepts bufferedGas formatEther chain nowSec blockTime
    agentAddr agentBal gasEstimate gasPrice confirmed a e :
  chain a = Some e -> e.(agreement).(status) <> Escrowed ->
  let res := BlockchainService.settleEscrow accepts bufferedGas formatEther chain nowSec
               blockTime agentAddr agentBal gasEstimate gasPrice confirmed a in
  res = (Throw "Cannot settle escrow. Current status: undefined", chain) \/
  exists m, ValidationService.getEscrowDetails chain nowSec a = Throw m /\ res = (Throw m, chain).
Proof.
  intros He Hst res. subst res.
  unfold BlockchainService.settleEscrow, ValidationService.validateAddress.
  destruct (ValidationService.getEscrowDetails chain nowSec a) as [d|m] eqn:Hg;
    [| right; exists m; split; reflexivity].
  left.
  apply getEscrowDetails_Done_storage in Hg as (e0 & He0 & Hd & _ & _).
  rewrite He in He0. injection He0 as <-. subst d. cbn.
  destruct (status (agreement e)); cbn; [reflexivity | contradiction | reflexivity | reflexivity].
Qed.

(** Witness for X13: a Pending escrow holding 1 ETH, which reads
    correctly. *)
Lemma settleEscrow_requires_escrowed_witness :
  let e := forced_deposit demo_escrow one_eth in
  let chain := fun x => if x =? escrowAddr then Some e else None in
  chain escrowAddr = Some e /\ e.(agreement).(status) <> Escrowed /\
  BlockchainService.settleEscrow accept_all (fun g => g) (fun _ => "") chain t0 t0 agent
    one_eth 50000 (10 ^ 9) true escrowAddr =
  (Throw "Cannot settle escrow. Current status: undefined", chain).
Proof.
  intros e chain.
  assert (Hc : chain escrowAddr = Some e) by reflexivity.
  assert (Hs : e.(agreement).(status) <> Escrowed) by discriminate.
  split; [exact Hc | split; [exact Hs |]].
  destruct (settleEscrow_requires_escrowed accept_all (fun g => g) (fun _ => "") chain t0 t0 agent
              one_eth 50000 (10 ^ 9) true escrowAddr e Hc Hs) as [H | (m & Hm & _)].
  - exact H.
  - exfalso. vm_compute in Hm. discriminate.
Defined.

(** ** The agent's agreement cache *)

Lemma set_flag_met ct d h now :
  0 <= ct <= 4 -> ConditionService.checkCondition ct h (Some (AgentCache.set_flag ct d)) now = true.
Proof.
  intros Hct.
  assert (ct = 0 \/ ct = 1 \/ ct = 2 \/ ct = 3 \/ ct = 4) as [->|[->|[->|[->| ->]]]] by lia;
    reflexivity.
Qed.


Lemma lower_char_idem c : AgentCache.lower_char (AgentCache.lower_char c) = AgentCache.lower_char c.
Proof.
  destruct c as [b0 b1 b2 b3 b4 b5 b6 b7];
    destruct b0, b1, b2, b3, b4, b5, b6, b7; reflexivity.
Qed.

Lemma validateAddress_idem s :
  AgentCache.validateAddress (AgentCache.validateAddress s) = AgentCache.validateAddress s.
Proof.
  unfold AgentCache.validateAddress.
  induction s as [|c s IH]; cbn; [reflexivity|].
  rewrite lower_char_idem, IH. reflexivity.
Qed.

(** X14. [triggerCondition] with a type in [0..4], called with the key
    under which monitoring reads the cache (the lowercase form
    [validateAddress] returns), leaves the running flag and every other
    key's record alone; from then on monitoring's read of any address
    with that lowercase form is served from the cache (the state does not
    change) and gives a record that makes [checkCondition] of that type
    true whatever the hash and the time. *)
Theorem triggerCondition_sticks st k ct prNumber :
  0 <= ct <= 4 ->
  let st' := AgentCache.triggerCondition st k ct prNumber in
  AgentCache.isRunning st' = AgentCache.isRunning st /\
  (forall x, x <> k -> AgentCache.agreementCache st' x = AgentCache.agreementCache st x) /\
  forall a createdAtSec prNumber',
    AgentCache.validateAddress a = k ->
    let '(d, st'') := AgentCache.getSimulatedAgreementData st' (AgentCache.validateAddress a)
                        createdAtSec prNumber' in
    st'' = st' /\ forall h now, ConditionService.checkCondition ct h (Some d) now = true.
Proof.
  intros Hct st'. subst st'.
  unfold AgentCache.triggerCondition, AgentCache.getSimulatedAgreementData, AgentCache.cache_set.
  destruct (AgentCache.agreementCache st k) as [d0|] eqn:Hc; cbn beta iota;
    (refine (conj eq_refl (conj _ _));
     [ intros x Hx; apply String.eqb_neq in Hx; cbn; rewrite ?Hx; reflexivity
     | intros a cAt pr' Ha; rewrite Ha; cbn; rewrite String.eqb_refl; split; [reflexivity|];
       intros h now; apply set_flag_met, Hct ]).
Qed.

(** Witness for X14: a PR condition triggered under the lowercase key of a
    checksummed address, seen by monitoring's read of that address. *)
Lemma triggerCondition_sticks_witness :
  let k := "0xab5801a7d398351b8be11c439e05c5b3259aec9b" in
  let a := "0xAb5801a7D398351b8bE11C439e05C5B3259aeC9B" in
  0 <= 2 <= 4 /\ AgentCache.validateAddress a = k /\
  let st := AgentCache.triggerCondition (AgentCache.initialize AgentCache.new_AgentService) k 2 17 in
  ConditionService.checkCondition 2 42
    (Some (fst (AgentCache.getSimulatedAgreementData st (AgentCache.validateAddress a) (Some t0) 3)))
    (t0 * 1000) = true.
Proof.
  intros k a.
  assert (Hct : 0 <= 2 <= 4) by lia.
  assert (Ha : AgentCache.validateAddress a = k) by (vm_compute; reflexivity).
  split; [exact Hct|]. split; [exact Ha|]. intros st.
  destruct (triggerCondition_sticks (AgentCache.initialize AgentCache.new_AgentService)
              k 2 17 Hct) as (_ & _ & H).
  specialize (H a (Some t0) 3 Ha). fold st in H.
  destruct (AgentCache.getSimulatedAgreementData st (AgentCache.validateAddress a) (Some t0) 3)
    as [d st''].
  destruct H as [_ H]. apply H.
Defined.

(** X15. [triggerCondition] called with an address that is not in
    lowercase (a checksummed address, as the CLI passes them) stores the
    record under that exact string, which is never the key monitoring
    reads: for every address, the cache entry under its [validateAddress]
    form and the record [getSimulatedAgreementData] returns there are the
    same as without the trigger. *)
Theorem triggerCondition_missed_by_monitoring st k ct prNumber :
  AgentCache.validateAddress k <> k ->
  let st' := AgentCache.triggerCondition st k ct prNumber in
  forall a createdAtSec prNumber',
    AgentCache.agreementCache st' (AgentCache.validateAddress a) =
      AgentCache.agreementCache st (AgentCache.validateAddress a) /\
    fst (AgentCache.getSimulatedAgreementData st' (AgentCache.validateAddress a)
           createdAtSec prNumber') =
    fst (AgentCache.getSimulatedAgreementData st (AgentCache.validateAddress a)
           createdAtSec prNumber').
Proof.
  intros Hk st' a cAt pr'. subst st'.
  assert (Hne : String.eqb (AgentCache.validateAddress a) k = false).
  { apply String.eqb_neq. intros E. apply Hk. rewrite <- E. apply validateAddress_idem. }
  unfold AgentCache.triggerCondition, AgentCache.getSimulatedAgreementData, AgentCache.cache_set.
  destruct (AgentCache.agreementCache st k) as [d0|] eqn:Hc; cbn beta iota; cbn;
    rewrite ?Hne; split; try reflexivity;
    destruct (AgentCache.agreementCache st (AgentCache.validateAddress a)); reflexivity.
Qed.

(** Witness for X15: a Task condition triggered with a checksummed
    address, as the CLI does, is not met when monitoring reads that
    address. *)
Lemma triggerCondition_missed_by_monitoring_witness :
  let k := "0x5aAeb6053F3E94C9b9A09f33669435E7Ef1BeAed" in
  AgentCache.validateAddress k <> k /\
  let st := AgentCache.triggerCondition (AgentCache.initialize AgentCache.new_AgentService) k 1 17 in
  ConditionService.checkCondition 1 42
    (Some (fst (AgentCache.getSimulatedAgreementData st (AgentCache.validateAddress k) (Some t0) 3)))
    (t0 * 1000) = false.
Proof.
  intros k.
  assert (Hk : AgentCache.validateAddress k <> k) by (intros E; vm_compute in E; discriminate E).
  split; [exact Hk|]. intros st.
  destruct (triggerCondition_missed_by_monitoring (AgentCache.initialize AgentCache.new_AgentService)
              k 1 17 Hk k (Some t0) 3) as [_ E].
  fold st in E. rewrite E. vm_compute. reflexivity.
Defined.
